(** * TargetHazardWorld: a shallow embedding of
      [safe_learning_environments/envs/target_hazard_world.py]

    Three point masses (agent, target, hazard) move in a bounded plane under
    clipped accelerations.  NumPy's float vectors of shape (2,) are modelled
    by pairs of exact rationals ([Q]): rounding, infinities and NaN are
    outside this model.  The Euclidean norm, which is not rational in
    general, is carried as a quadratic surd (the radicand under the square
    root) and related to the real square root by [surd_ltb_spec].

    Python exceptions are an explicit [result]; the object's attributes are
    the fields of the record [TargetHazardWorld]; NumPy's generator and the
    pygame module are external and enter through the class [RandomSource]
    and the record [Pygame]. *)

From Stdlib Require Import QArith Qminmax Qabs Qreals Reals Lra Lia Psatz.
From stdpp Require Import base option list strings gmap.

Local Open Scope Q_scope.

(** ** Numeric vectors *)

Definition vec2 : Type := Q * Q.

Definition zeros : vec2 := (0, 0).

Definition vadd (u v : vec2) : vec2 := (fst u + fst v, snd u + snd v).
Definition vsub (u v : vec2) : vec2 := (fst u - fst v, snd u - snd v).
Definition vscale (u : vec2) (k : Q) : vec2 := (fst u * k, snd u * k).

(** [np.clip(a, a_min, a_max)] is [np.minimum(a_max, np.maximum(a, a_min))]. *)
Definition clip (a a_min a_max : Q) : Q := Qmin (Qmax a a_min) a_max.

Definition vclip (a : vec2) (a_min a_max : Q) : vec2 :=
  (clip (fst a) a_min a_max, clip (snd a) a_min a_max).

(** The value [sqrt radicand], kept exact. *)
Record Surd : Type := Sqrt { radicand : Q }.

(** [np.linalg.norm(v)] for a vector of shape (2,): [sqrt(dot(v, v))]. *)
Definition linalg_norm (v : vec2) : Surd :=
  Sqrt (fst v * fst v + snd v * snd v).

(** [s < p] for a surd [s] and a rational [p]. *)
Definition surd_ltb (s : Surd) (p : Q) : bool :=
  match 0 ?= p with
  | Lt => match radicand s ?= p * p with Lt => true | _ => false end
  | _ => false
  end.

Definition surd_R (s : Surd) : R := sqrt (Q2R (radicand s)).

(** ** Exceptions *)

Inductive exn : Type := AssertionError | AttributeError | ValueError.

Inductive result (A : Type) : Type :=
| Ok (a : A)
| Raise (e : exn).
Arguments Ok {A} a.
Arguments Raise {A} e.

#[export] Instance result_ret : MRet result := fun _ a => Ok a.
#[export] Instance result_bind : MBind result := fun _ _ k m =>
  match m with
  | Ok a => k a
  | Raise e => Raise e
  end.

(** ** External collaborators *)

(** The NumPy generator behind [self.np_random]: [default_rng seed] is
    [gymnasium.utils.seeding.np_random(seed)], [uniform low high g] is
    [g.uniform(low, high, size=2)] together with the advanced generator. *)
Class RandomSource (G : Type) : Type := {
  default_rng : N -> G;
  uniform : Q -> Q -> G -> vec2 * G;
  uniform_range : forall low high g,
    low <= high ->
    (low <= fst (fst (uniform low high g)) <= high) /\
    (low <= snd (fst (uniform low high g)) <= high)
}.

(** The pygame module state this process sees. *)
Record Pygame : Type := {
  pygame_initialized : bool;
  display_initialized : bool
}.

Definition pygame_init (pg : Pygame) : Pygame :=
  {| pygame_initialized := true; display_initialized := true |}.
Definition pygame_display_init (pg : Pygame) : Pygame :=
  {| pygame_initialized := pygame_initialized pg; display_initialized := true |}.
Definition pygame_display_quit (pg : Pygame) : Pygame :=
  {| pygame_initialized := pygame_initialized pg; display_initialized := false |}.
Definition pygame_quit (pg : Pygame) : Pygame :=
  {| pygame_initialized := false; display_initialized := false |}.

(** [pygame.display.set_mode((w, h))] and [pygame.time.Clock()]. *)
Record Surface : Type := { surface_size : Z * Z }.
Inductive Clock : Type := MkClock.

(** A box of gymnasium, of shape (2,) with scalar bounds. *)
Record Box : Type := { low : Q; high : Q }.

(** [spaces.Box(low, high, shape=(2,), dtype=float)]: gymnasium raises a
    [ValueError] when the lower bound exceeds the upper one. *)
Definition spaces_Box (low high : Q) : result Box :=
  if Qle_bool low high
  then Ok {| low := low; high := high |}
  else Raise ValueError.

(** ** The environment object *)

Definition render_modes : list string := ["human"; "rgb_array"]%string.
Definition render_fps : Q := 24.

Record Bodies : Type := {
  _agent_location : vec2;  _agent_velocity : vec2;
  _target_location : vec2; _target_velocity : vec2;
  _hazard_location : vec2; _hazard_velocity : vec2
}.

Definition Obs : Type := vec2 * vec2 * vec2 * vec2 * vec2 * vec2.
Definition Action : Type := vec2 * vec2 * vec2.

Record Info : Type := {
  target_distance : Surd;
  hazard_distance : Surd
}.

Record TargetHazardWorld (G : Type) : Type := {
  window_size : Z;
  location_precision : Q;
  max_absolute_location : Q;
  max_absolute_velocity : Q;
  max_absolute_acceleration : Q;
  observation_space : list Box;
  action_space : list Box;
  render_mode : option string;
  window : option Surface;
  clock : option Clock;
  show_observation_traces : bool;
  (* attributes that exist only once [reset] has run *)
  bodies : option Bodies;
  observations : option (list Obs);
  (* inherited from [gym.Env] *)
  np_random : G;
  (* the pygame module, shared by the process *)
  pygame : Pygame
}.
Arguments window_size {G} _.
Arguments location_precision {G} _.
Arguments max_absolute_location {G} _.
Arguments max_absolute_velocity {G} _.
Arguments max_absolute_acceleration {G} _.
Arguments observation_space {G} _.
Arguments action_space {G} _.
Arguments render_mode {G} _.
Arguments window {G} _.
Arguments clock {G} _.
Arguments show_observation_traces {G} _.
Arguments bodies {G} _.
Arguments observations {G} _.
Arguments np_random {G} _.
Arguments pygame {G} _.

Section World.
Context {G : Type} `{RandomSource G}.

Abbreviation World := (TargetHazardWorld G).

(** *** Attribute assignment *)

Definition set_window (self : World) (w : option Surface) (pg : Pygame) : World :=
  {| window_size := window_size self;
     location_precision := location_precision self;
     max_absolute_location := max_absolute_location self;
     max_absolute_velocity := max_absolute_velocity self;
     max_absolute_acceleration := max_absolute_acceleration self;
     observation_space := observation_space self;
     action_space := action_space self;
     render_mode := render_mode self;
     window := w;
     clock := clock self;
     show_observation_traces := show_observation_traces self;
     bodies := bodies self;
     observations := observations self;
     np_random := np_random self;
     pygame := pg |}.

Definition set_clock (self : World) (c : option Clock) : World :=
  {| window_size := window_size self;
     location_precision := location_precision self;
     max_absolute_location := max_absolute_location self;
     max_absolute_velocity := max_absolute_velocity self;
     max_absolute_acceleration := max_absolute_acceleration self;
     observation_space := observation_space self;
     action_space := action_space self;
     render_mode := render_mode self;
     window := window self;
     clock := c;
     show_observation_traces := show_observation_traces self;
     bodies := bodies self;
     observations := observations self;
     np_random := np_random self;
     pygame := pygame self |}.

Definition set_bodies (self : World) (b : Bodies) : World :=
  {| window_size := window_size self;
     location_precision := location_precision self;
     max_absolute_location := max_absolute_location self;
     max_absolute_velocity := max_absolute_velocity self;
     max_absolute_acceleration := max_absolute_acceleration self;
     observation_space := observation_space self;
     action_space := action_space self;
     render_mode := render_mode self;
     window := window self;
     clock := clock self;
     show_observation_traces := show_observation_traces self;
     bodies := Some b;
     observations := observations self;
     np_random := np_random self;
     pygame := pygame self |}.

Definition set_observations (self : World) (l : list Obs) : World :=
  {| window_size := window_size self;
     location_precision := location_precision self;
     max_absolute_location := max_absolute_location self;
     max_absolute_velocity := max_absolute_velocity self;
     max_absolute_acceleration := max_absolute_acceleration self;
     observation_space := observation_space self;
     action_space := action_space self;
     render_mode := render_mode self;
     window := window self;
     clock := clock self;
     show_observation_traces := show_observation_traces self;
     bodies := bodies self;
     observations := Some l;
     np_random := np_random self;
     pygame := pygame self |}.

Definition set_np_random (self : World) (g : G) : World :=
  {| window_size := window_size self;
     location_precision := location_precision self;
     max_absolute_location := max_absolute_location self;
     max_absolute_velocity := max_absolute_velocity self;
     max_absolute_acceleration := max_absolute_acceleration self;
     observation_space := observation_space self;
     action_space := action_space self;
     render_mode := render_mode self;
     window := window self;
     clock := clock self;
     show_observation_traces := show_observation_traces self;
     bodies := bodies self;
     observations := observations self;
     np_random := g;
     pygame := pygame self |}.

Definition set_pygame (self : World) (pg : Pygame) : World :=
  set_window self (window self) pg.

(** Reading an attribute that [reset] has not yet created. *)
Definition getattr {A : Type} (a : option A) : result A :=
  match a with
  | Some x => Ok x
  | None => Raise AttributeError
  end.

(** *** [__init__] *)

(** [entropy] is the generator gymnasium creates from operating-system
    entropy when [np_random] is first used without a seed, and [pg] the
    pygame state at construction. *)
Definition __init__ (entropy : G) (pg : Pygame)
    (render_mode : option string) (window_size : Z)
    (location_precision max_absolute_location max_absolute_velocity
       max_absolute_acceleration : Q)
    (show_observation_traces : bool) : result World :=
  (* define observation_space: position and velocity of agent, target, hazard *)
  agent_location_box ←
    spaces_Box (- max_absolute_location) max_absolute_location;
  agent_velocity_box ←
    spaces_Box (- max_absolute_velocity) max_absolute_velocity;
  target_location_box ←
    spaces_Box (- max_absolute_location) max_absolute_location;
  target_velocity_box ←
    spaces_Box (- max_absolute_velocity) max_absolute_velocity;
  hazard_location_box ←
    spaces_Box (- max_absolute_location) max_absolute_location;
  hazard_velocity_box ←
    spaces_Box (- max_absolute_velocity) max_absolute_velocity;
  let observation_space :=
    [agent_location_box; agent_velocity_box;
     target_location_box; target_velocity_box;
     hazard_location_box; hazard_velocity_box] in
  (* define action_space *)
  action0_box ←
    spaces_Box (- max_absolute_acceleration) max_absolute_acceleration;
  action1_box ←
    spaces_Box (- max_absolute_acceleration) max_absolute_acceleration;
  action2_box ←
    spaces_Box (- max_absolute_acceleration) max_absolute_acceleration;
  let action_space := [action0_box; action1_box; action2_box] in
  (* assert render_mode is None or render_mode in metadata["render_modes"] *)
  if match render_mode with
     | None => true
     | Some m => bool_decide (m ∈ render_modes)
     end
  then
    Ok {| window_size := window_size;
          location_precision := location_precision;
          max_absolute_location := max_absolute_location;
          max_absolute_velocity := max_absolute_velocity;
          max_absolute_acceleration := max_absolute_acceleration;
          observation_space := observation_space;
          action_space := action_space;
          render_mode := render_mode;
          window := None;
          clock := None;
          show_observation_traces := show_observation_traces;
          bodies := None;
          observations := None;
          np_random := entropy;
          pygame := pg |}
  else Raise AssertionError.

(** *** Observations *)

Definition _get_obs (self : World) : result Obs :=
  b ← getattr (bodies self);
  Ok (_agent_location b, _agent_velocity b,
      _target_location b, _target_velocity b,
      _hazard_location b, _hazard_velocity b).

Definition _get_info (self : World) : result Info :=
  b ← getattr (bodies self);
  Ok {| target_distance :=
          linalg_norm (vsub (_agent_location b) (_target_location b));
        hazard_distance :=
          linalg_norm (vsub (_agent_location b) (_hazard_location b)) |}.

(** *** Rendering

    Only the effects on the object and on pygame are kept: the canvas,
    the drawing calls and the returned pixel array belong to pygame.  The
    pygame calls are taken to succeed: a negative [window_size], which
    pygame refuses, and a human-mode frame after [close] are outside the
    model. *)

Definition is_human (self : World) : bool :=
  bool_decide (render_mode self = Some "human"%string).

Definition _render_frame (self : World) : result World :=
  let self :=
    match window self with
    | None =>
        if is_human self
        then set_window self
               (Some {| surface_size := (window_size self, window_size self) |})
               (pygame_display_init (pygame_init (pygame self)))
        else self
    | Some _ => self
    end in
  let self :=
    match clock self with
    | None => if is_human self then set_clock self (Some MkClock) else self
    | Some _ => self
    end in
  self ←
    (if show_observation_traces self
     then
       l ← getattr (observations self);
       o ← _get_obs self;
       Ok (set_observations self (l ++ [o]))
     else Ok self);
  (* the three circles read the current locations *)
  _ ← getattr (bodies self);
  Ok self.

Definition render (self : World) : result World :=
  if bool_decide (render_mode self = Some "rgb_array"%string)
  then _render_frame self
  else Ok self.

(** *** [reset] *)

Definition options_get (options : option (gmap string vec2))
    (key : string) (dflt : vec2) : vec2 :=
  match options with
  | Some o => default dflt (o !! key)
  | None => dflt
  end.

Definition reset (self : World) (seed : option N)
    (options : option (gmap string vec2)) : result (World * (Obs * Info)) :=
  (* super().reset(seed=seed) *)
  let rng :=
    match seed with
    | Some s => default_rng s
    | None => np_random self
    end in
  let lo := - max_absolute_location self in
  let hi := max_absolute_location self in
  let agent_velocity := zeros in
  let '(agent_location, rng) := uniform lo hi rng in
  let agent_location :=
    options_get options "agent_location" agent_location in
  let target_velocity := zeros in
  let '(target_location, rng) := uniform lo hi rng in
  let target_location :=
    options_get options "target_location" target_location in
  let hazard_velocity := zeros in
  let '(hazard_location, rng) := uniform lo hi rng in
  let hazard_location :=
    options_get options "hazard_location" hazard_location in
  let self := set_np_random self rng in
  let self :=
    set_bodies self
      {| _agent_location := agent_location;
         _agent_velocity := agent_velocity;
         _target_location := target_location;
         _target_velocity := target_velocity;
         _hazard_location := hazard_location;
         _hazard_velocity := hazard_velocity |} in
  let self :=
    if show_observation_traces self then set_observations self [] else self in
  self ← (if is_human self then _render_frame self else Ok self);
  obs ← _get_obs self;
  info ← _get_info self;
  Ok (self, (obs, info)).

(** *** [_step] and [step] *)

Definition _step (self : World) (location velocity accelaretion : vec2)
    (dt : Q) : vec2 * vec2 :=
  let accelaretion :=
    vclip accelaretion (- max_absolute_acceleration self)
      (max_absolute_acceleration self) in
  let velocity := vadd velocity (vscale accelaretion dt) in
  let velocity :=
    vclip velocity (- max_absolute_velocity self)
      (max_absolute_velocity self) in
  let location := vadd location (vscale velocity dt) in
  let location :=
    vclip location (- max_absolute_location self)
      (max_absolute_location self) in
  (location, velocity).

Definition step (self : World) (action : Action)
    : result (World * (Obs * Q * bool * bool * Info)) :=
  let '(action0, action1, action2) := action in
  let dt := 1 / render_fps in
  b ← getattr (bodies self);
  let '(agent_location, agent_velocity) :=
    _step self (_agent_location b) (_agent_velocity b) action0 dt in
  let '(target_location, target_velocity) :=
    _step self (_target_location b) (_target_velocity b) action1 dt in
  let '(hazard_location, hazard_velocity) :=
    _step self (_hazard_location b) (_hazard_velocity b) action2 dt in
  let self :=
    set_bodies self
      {| _agent_location := agent_location;
         _agent_velocity := agent_velocity;
         _target_location := target_location;
         _target_velocity := target_velocity;
         _hazard_location := hazard_location;
         _hazard_velocity := hazard_velocity |} in
  let terminated :=
    surd_ltb (linalg_norm (vsub agent_location target_location))
      (location_precision self) in
  let reward := - dt in
  self ← (if is_human self then _render_frame self else Ok self);
  obs ← _get_obs self;
  info ← _get_info self;
  Ok (self, (obs, reward, terminated, false, info)).

(** *** [close] *)

Definition close (self : World) : World :=
  match window self with
  | Some _ =>
      set_pygame self (pygame_quit (pygame_display_quit (pygame self)))
  | None => self
  end.

(** *** Episodes: a reset followed by a sequence of steps *)

Fixpoint steps (self : World) (actions : list Action)
    : result (World * list (Obs * Q * bool * bool * Info)) :=
  match actions with
  | [] => Ok (self, [])
  | a :: rest =>
      '(self, out) ← step self a;
      '(self, outs) ← steps self rest;
      Ok (self, out :: outs)
  end.

Definition episode (self : World) (seed : option N)
    (options : option (gmap string vec2)) (actions : list Action)
    : result (World * (Obs * Info) * list (Obs * Q * bool * bool * Info)) :=
  '(self, first) ← reset self seed options;
  '(self, outs) ← steps self actions;
  Ok (self, first, outs).

End World.

(** ** A concrete random source

    A linear congruential generator, used to run the model: the state is a
    natural number and a draw maps it into [[low, high]]. *)

Definition lcg_next (g : N) : N := ((1103515245 * g + 12345) mod 2147483648)%N.

Definition lcg_unit (g : N) : Q := Z.of_N (g mod 1024) # 1024.

Definition lcg_uniform (low high : Q) (g : N) : vec2 * N :=
  let g1 := lcg_next g in
  let g2 := lcg_next g1 in
  ((low + (high - low) * lcg_unit g1, low + (high - low) * lcg_unit g2), g2).

#[export] Program Instance lcg_source : RandomSource N := {|
  default_rng := fun seed => seed;
  uniform := lcg_uniform
|}.
Next Obligation.
  intros low high g Hlh; cbn [lcg_uniform fst snd].
  assert (Hunit : forall g : N, 0 <= lcg_unit g <= 1).
  { intros g'; unfold lcg_unit, Qle; cbn [Qnum Qden].
    pose proof (N.mod_upper_bound g' 1024 ltac:(discriminate)) as Hm.
    revert Hm; generalize (g' mod 1024)%N; intros m Hm.
    lia. }
  assert (Haff : forall u, 0 <= u <= 1 -> low <= low + (high - low) * u <= high)
    by (intros u [H0 H1]; split; nra).
  split; apply Haff, Hunit.
Qed.

(** ** A concrete object

    The object [TargetHazardWorld(render_mode, show_observation_traces)]
    with every other argument at its default, before any [reset]. *)

Definition pygame_off : Pygame :=
  {| pygame_initialized := false; display_initialized := false |}.

Definition unit_box : Box := {| low := - (1); high := 1 |}.

Definition fresh (mode : option string) (traces : bool) : TargetHazardWorld N :=
  {| window_size := 500;
     location_precision := 1 # 100;
     max_absolute_location := 1;
     max_absolute_velocity := 1;
     max_absolute_acceleration := 1;
     observation_space :=
       [unit_box; unit_box; unit_box; unit_box; unit_box; unit_box];
     action_space := [unit_box; unit_box; unit_box];
     render_mode := mode;
     window := None;
     clock := None;
     show_observation_traces := traces;
     bodies := None;
     observations := None;
     np_random := 2024%N;
     pygame := pygame_off |}.

(** The same object after [reset(seed, options)]. *)
Definition started (mode : option string) (traces : bool) (seed : option N)
    (options : option (gmap string vec2)) : TargetHazardWorld N :=
  match reset (fresh mode traces) seed options with
  | Ok (self, _) => self
  | Raise _ => fresh mode traces
  end.

(** * Vocabulary of the properties *)

Section Vocabulary.
Context {G : Type} `{RandomSource G}.

Abbreviation World := (TargetHazardWorld G).

(** The interval clamp as the specification words it. *)
Definition clamp (x lo hi : Q) : Q :=
  if Qlt_le_dec x lo then lo
  else if Qlt_le_dec hi x then hi
  else x.

(** The Euclidean distance of two points, as a real number. *)
Definition euclid (u v : vec2) : R :=
  sqrt ((Q2R (fst u) - Q2R (fst v)) * (Q2R (fst u) - Q2R (fst v))
        + (Q2R (snd u) - Q2R (snd v)) * (Q2R (snd u) - Q2R (snd v)))%R.

(** Both components of [v] have absolute value at most [m]. *)
Definition within (m : Q) (v : vec2) : Prop :=
  Qabs (fst v) <= m /\ Qabs (snd v) <= m.

(** The constructor arguments as the object stores them. *)
Definition config (self : World) :=
  (window_size self, location_precision self,
   max_absolute_location self, max_absolute_velocity self,
   max_absolute_acceleration self,
   render_mode self, show_observation_traces self,
   observation_space self, action_space self).

(** A trace list exists whenever traces are switched on. *)
Definition traces_ok (self : World) : Prop :=
  show_observation_traces self = true -> is_Some (observations self).

Definition obs_of (b : Bodies) : Obs :=
  (_agent_location b, _agent_velocity b,
   _target_location b, _target_velocity b,
   _hazard_location b, _hazard_velocity b).

Definition info_of (b : Bodies) : Info :=
  {| target_distance :=
       linalg_norm (vsub (_agent_location b) (_target_location b));
     hazard_distance :=
       linalg_norm (vsub (_agent_location b) (_hazard_location b)) |}.

(** The three draws of [reset], in program order, and the generator left. *)
Definition seeded (self : World) (seed : option N) : G :=
  match seed with
  | Some s => default_rng s
  | None => np_random self
  end.

Definition draw (self : World) (g : G) : vec2 * G :=
  uniform (- max_absolute_location self) (max_absolute_location self) g.

Definition draw1 (self : World) (seed : option N) : vec2 * G :=
  draw self (seeded self seed).
Definition draw2 (self : World) (seed : option N) : vec2 * G :=
  draw self (snd (draw1 self seed)).
Definition draw3 (self : World) (seed : option N) : vec2 * G :=
  draw self (snd (draw2 self seed)).

Definition initial_bodies (self : World) (seed : option N)
    (options : option (gmap string vec2)) : Bodies :=
  {| _agent_location :=
       options_get options "agent_location" (fst (draw1 self seed));
     _agent_velocity := zeros;
     _target_location :=
       options_get options "target_location" (fst (draw2 self seed));
     _target_velocity := zeros;
     _hazard_location :=
       options_get options "hazard_location" (fst (draw3 self seed));
     _hazard_velocity := zeros |}.

(** The bodies after one [step]. *)
Definition advance (self : World) (b : Bodies) (action : Action) : Bodies :=
  let dt := 1 / render_fps in
  let a := _step self (_agent_location b) (_agent_velocity b)
             (fst (fst action)) dt in
  let t := _step self (_target_location b) (_target_velocity b)
             (snd (fst action)) dt in
  let h := _step self (_hazard_location b) (_hazard_velocity b)
             (snd action) dt in
  {| _agent_location := fst a; _agent_velocity := snd a;
     _target_location := fst t; _target_velocity := snd t;
     _hazard_location := fst h; _hazard_velocity := snd h |}.

(** What the dynamics read from the object. *)
Definition physics (self : World) :=
  (location_precision self, max_absolute_location self,
   max_absolute_velocity self, max_absolute_acceleration self).

(** What [step] returns besides the object, from the bodies it leaves. *)
Definition outcome (self : World) (b' : Bodies)
    : Obs * Q * bool * bool * Info :=
  (obs_of b', - (1 / render_fps),
   surd_ltb (linalg_norm (vsub (_agent_location b') (_target_location b')))
     (location_precision self),
   false, info_of b').

Fixpoint trajectory (self : World) (b : Bodies) (actions : list Action)
    : list (Obs * Q * bool * bool * Info) :=
  match actions with
  | [] => []
  | a :: rest =>
      let b' := advance self b a in
      outcome self b' :: trajectory self b' rest
  end.

(** Every position of an observation is within the location box and every
    velocity within the velocity box of [self]. *)
Definition bounded (self : World) (o : Obs) : Prop :=
  let '(al, av, tl, tv, hl, hv) := o in
  (within (max_absolute_location self) al /\
   within (max_absolute_velocity self) av) /\
  (within (max_absolute_location self) tl /\
   within (max_absolute_velocity self) tv) /\
  (within (max_absolute_location self) hl /\
   within (max_absolute_velocity self) hv).

Definition location_keys : list string :=
  ["agent_location"; "target_location"; "hazard_location"]%string.

(** Every position that [options] supplies lies in the box of radius [m]. *)
Definition overrides_within (m : Q) (options : option (gmap string vec2))
    : Prop :=
  forall (o : gmap string vec2) (key : string) (v : vec2),
    options = Some o -> key ∈ location_keys -> o !! key = Some v ->
    within m v.

(** The integrator as the specification words it, for one axis, with
    [dt = 1/24] and the interval clamp. *)
Definition advance_axis (max_location max_velocity max_acceleration : Q)
    (position velocity acceleration : Q) : Q * Q :=
  let dt := 1 # 24 in
  let a' := clamp acceleration (- max_acceleration) max_acceleration in
  let velocity' :=
    clamp (velocity + a' * dt) (- max_velocity) max_velocity in
  let position' :=
    clamp (position + velocity' * dt) (- max_location) max_location in
  (position', velocity').

(** Both axes of one body, each on its own. *)
Definition advance_body (max_location max_velocity max_acceleration : Q)
    (position velocity acceleration : vec2) : vec2 * vec2 :=
  let x := advance_axis max_location max_velocity max_acceleration
             (fst position) (fst velocity) (fst acceleration) in
  let y := advance_axis max_location max_velocity max_acceleration
             (snd position) (snd velocity) (snd acceleration) in
  ((fst x, fst y), (snd x, snd y)).

(** The position that [options] supplies under [key], if any. *)
Definition supplied (options : option (gmap string vec2)) (key : string)
    : option vec2 :=
  match options with
  | Some o => o !! key
  | None => None
  end.

(** The position components of an observation. *)
Definition agent_position (o : Obs) : vec2 :=
  let '(al, _, _, _, _, _) := o in al.
Definition target_position (o : Obs) : vec2 :=
  let '(_, _, tl, _, _, _) := o in tl.
Definition hazard_position (o : Obs) : vec2 :=
  let '(_, _, _, _, hl, _) := o in hl.

Definition allowed_render_modes : list (option string) :=
  [None; Some "human"%string; Some "rgb_array"%string].

(** The object a construction that succeeds returns. *)
Definition constructed (entropy : G) (pg : Pygame) (mode : option string)
    (size : Z) (precision max_location max_velocity max_acceleration : Q)
    (traces : bool) : World :=
  let location_box := {| low := - max_location; high := max_location |} in
  let velocity_box := {| low := - max_velocity; high := max_velocity |} in
  let acceleration_box :=
    {| low := - max_acceleration; high := max_acceleration |} in
  {| window_size := size;
     location_precision := precision;
     max_absolute_location := max_location;
     max_absolute_velocity := max_velocity;
     max_absolute_acceleration := max_acceleration;
     observation_space :=
       [location_box; velocity_box; location_box; velocity_box;
        location_box; velocity_box];
     action_space := [acceleration_box; acceleration_box; acceleration_box];
     render_mode := mode;
     window := None;
     clock := None;
     show_observation_traces := traces;
     bodies := None;
     observations := None;
     np_random := entropy;
     pygame := pg |}.

End Vocabulary.

(** * The drawing of [_render_frame]

    [_render_frame] above keeps the effects on the object.  What it draws is
    the sequence of pygame calls it makes on its canvas, in program order;
    the rasterised pixels are pygame's.  As everywhere in this model the
    pygame calls are taken to succeed, which they do while the display is
    alive: a human-mode frame drawn after [close] is outside the model. *)

Definition Color : Type := Z * Z * Z.

Inductive Draw : Type :=
| fill (color : Color)
| aalines (color : Color) (closed : bool) (points : list vec2) (blend : Z)
| circle (color : Color) (center : vec2) (radius : Z).

Section Drawing.
Context {G : Type} `{RandomSource G}.

Abbreviation World := (TargetHazardWorld G).

(** [window_isometry = lambda location:
      (1 + location/self.max_absolute_location)*self.window_size/2].  A
    division by a zero bound, not a number in NumPy, is outside the
    model. *)
Definition window_isometry (self : World) (location : vec2) : vec2 :=
  ((1 + fst location / max_absolute_location self)
     * inject_Z (window_size self) / 2,
   (1 + snd location / max_absolute_location self)
     * inject_Z (window_size self) / 2).

(** The calls on the canvas, for the object as it is once the window, the
    clock and the trace have been updated. *)
Definition draw_calls (self : World) : result (list Draw) :=
  let canvas := [fill (255, 255, 255)%Z] in
  canvas ←
    (if show_observation_traces self
     then
       l ← getattr (observations self);
       if (2 <=? length l)%nat
       then
         (* the columns of self.observations, as zip gives them *)
         let _agent_locations := map agent_position l in
         let _target_locations := map target_position l in
         let _hazard_locations := map hazard_position l in
         Ok (canvas ++
             [aalines (50, 150, 50)%Z false
                (map (window_isometry self) _target_locations) 2;
              aalines (150, 50, 50)%Z false
                (map (window_isometry self) _hazard_locations) 2;
              aalines (0, 0, 0)%Z false
                (map (window_isometry self) _agent_locations) 2])
       else Ok canvas
     else Ok canvas);
  b ← getattr (bodies self);
  Ok (canvas ++
      [circle (50, 150, 50)%Z (window_isometry self (_target_location b)) 10;
       circle (150, 50, 50)%Z (window_isometry self (_hazard_location b)) 10;
       circle (0, 0, 0)%Z (window_isometry self (_agent_location b)) 8]).

(** [_render_frame] with the canvas it has drawn. *)
Definition _render_frame_canvas (self : World) : result (World * list Draw) :=
  self ← _render_frame self;
  canvas ← draw_calls self;
  Ok (self, canvas).

(** *** Vocabulary for the drawing and the spaces *)

(** A canvas point lies in the square window. *)
Definition in_window (self : World) (p : vec2) : Prop :=
  (0 <= fst p <= inject_Z (window_size self)) /\
  (0 <= snd p <= inject_Z (window_size self)).

(** Every point a call draws lies in the window. *)
Definition drawn_in_window (self : World) (d : Draw) : Prop :=
  match d with
  | fill _ => True
  | aalines _ _ points _ => Forall (in_window self) points
  | circle _ center _ => in_window self center
  end.

(** A polyline has the two points pygame asks for. *)
Definition polyline_ok (d : Draw) : Prop :=
  match d with
  | aalines _ _ points _ => (2 <= length points)%nat
  | _ => True
  end.

(** [Box.contains] for a vector of shape (2,). *)
Definition Box_contains (box : Box) (v : vec2) : Prop :=
  (low box <= fst v <= high box) /\ (low box <= snd v <= high box).

(** The six vectors of an observation, in order. *)
Definition obs_list (o : Obs) : list vec2 :=
  let '(al, av, tl, tv, hl, hv) := o in [al; av; tl; tv; hl; hv].

(** The window, the clock and the pygame state that a human-mode frame
    leaves: created when missing, kept otherwise. *)
Definition window_after_frame (self : World) : option Surface :=
  match window self with
  | Some w => Some w
  | None =>
      if is_human self
      then Some {| surface_size := (window_size self, window_size self) |}
      else None
  end.

Definition clock_after_frame (self : World) : option Clock :=
  match clock self with
  | Some c => Some c
  | None => if is_human self then Some MkClock else None
  end.

Definition pygame_after_frame (self : World) : Pygame :=
  match window self with
  | Some _ => pygame self
  | None =>
      if is_human self
      then pygame_display_init (pygame_init (pygame self))
      else pygame self
  end.

(** Two vectors agree as rationals, component by component. *)
Definition veq (u v : vec2) : Prop := fst u == fst v /\ snd u == snd v.

(** [u] is at most [v] on both axes. *)
Definition vle (u v : vec2) : Prop := fst u <= fst v /\ snd u <= snd v.

Definition vopp (u : vec2) : vec2 := (- fst u, - snd u).

(** The three polylines of a trace: target, hazard, agent. *)
Definition trace_lines (self : World) (l : list Obs) : list Draw :=
  [aalines (50, 150, 50)%Z false
     (map (window_isometry self) (map target_position l)) 2;
   aalines (150, 50, 50)%Z false
     (map (window_isometry self) (map hazard_position l)) 2;
   aalines (0, 0, 0)%Z false
     (map (window_isometry self) (map agent_position l)) 2].

(** The three circles of the bodies: target, hazard, agent. *)
Definition body_circles (self : World) (b : Bodies) : list Draw :=
  [circle (50, 150, 50)%Z (window_isometry self (_target_location b)) 10;
   circle (150, 50, 50)%Z (window_isometry self (_hazard_location b)) 10;
   circle (0, 0, 0)%Z (window_isometry self (_agent_location b)) 8].

(** The next three draws of the generator [g], as [reset] makes them. *)
Definition three_draws (self : World) (g : G) : vec2 * vec2 * vec2 * G :=
  let d1 := draw self g in
  let d2 := draw self (snd d1) in
  let d3 := draw self (snd d2) in
  (fst d1, fst d2, fst d3, snd d3).

(** The window, the clock and pygame are as a frame would leave them. *)
Definition settled (self : World) : Prop :=
  window_after_frame self = window self /\
  clock_after_frame self = clock self /\
  pygame_after_frame self = pygame self.

(** The observation in what [step] returns. *)
Definition obs_out (out : Obs * Q * bool * bool * Info) : Obs :=
  fst (fst (fst (fst out))).

(** The bodies after a sequence of steps. *)
Fixpoint final_bodies (self : World) (b : Bodies) (actions : list Action)
    : Bodies :=
  match actions with
  | [] => b
  | a :: rest => final_bodies self (advance self b a) rest
  end.

End Drawing.

(** * Properties *)

(** ** Clipping *)

Lemma Qmax_case (a b : Q) :
  (a < b /\ Qmax a b = b) \/ (b <= a /\ Qmax a b = a).
Proof.
  unfold Qmax, GenericMinMax.gmax.
  destruct (a ?= b) eqn:E.
  - right; split; [apply Qle_lteq; right; symmetry; now apply Qeq_alt | easy].
  - left; split; [now apply Qlt_alt | easy].
  - right; split; [apply Qlt_le_weak; now apply Qgt_alt | easy].
Qed.

Lemma Qmin_case (a b : Q) :
  (a <= b /\ Qmin a b = a) \/ (b < a /\ Qmin a b = b).
Proof.
  unfold Qmin, GenericMinMax.gmin.
  destruct (a ?= b) eqn:E.
  - left; split; [apply Qle_lteq; right; now apply Qeq_alt | easy].
  - left; split; [apply Qlt_le_weak; now apply Qlt_alt | easy].
  - right; split; [now apply Qgt_alt | easy].
Qed.

Lemma clip_clamp (a lo hi : Q) : lo <= hi -> clip a lo hi = clamp a lo hi.
Proof.
  intros Hlh; unfold clip, clamp.
  destruct (Qmax_case a lo) as [[Ha ->] | [Ha ->]].
  - destruct (Qlt_le_dec a lo) as [_ | Hc]; [| exfalso; lra].
    destruct (Qmin_case lo hi) as [[_ ->] | [Hc _]]; [easy | exfalso; lra].
  - destruct (Qlt_le_dec a lo) as [Hc | _]; [exfalso; lra |].
    destruct (Qmin_case a hi) as [[Hb ->] | [Hb ->]];
      destruct (Qlt_le_dec hi a); try easy; exfalso; lra.
Qed.

Lemma clip_range (a lo hi : Q) : lo <= hi -> lo <= clip a lo hi <= hi.
Proof.
  intros Hlh; rewrite clip_clamp by easy; unfold clamp.
  destruct (Qlt_le_dec a lo); [lra |].
  destruct (Qlt_le_dec hi a); lra.
Qed.

Lemma clip_inside (a lo hi : Q) : lo <= a <= hi -> clip a lo hi == a.
Proof.
  intros [Hl Hh]; rewrite clip_clamp by lra; unfold clamp.
  destruct (Qlt_le_dec a lo); [lra |].
  destruct (Qlt_le_dec hi a); lra.
Qed.

#[export] Instance clip_proper : Proper (Qeq ==> Qeq ==> Qeq ==> Qeq) clip.
Proof. intros a a' Ha l l' Hl h h' Hh; unfold clip; now rewrite Ha, Hl, Hh. Qed.

Lemma Qsquare_nonneg (x : Q) : 0 <= x * x.
Proof. destruct (Qlt_le_dec x 0); nra. Qed.

(** Clipping two points to one interval never moves them apart. *)
Lemma clip_contracts (a b lo hi : Q) :
  lo <= hi ->
  (clip a lo hi - clip b lo hi) * (clip a lo hi - clip b lo hi)
  <= (a - b) * (a - b).
Proof.
  intros Hlh; rewrite !clip_clamp by easy; unfold clamp.
  pose proof (Qsquare_nonneg (a - b)) as Hsq.
  assert (Hz : forall z : Q, (z - z) * (z - z) == 0) by (intros; ring).
  destruct (Qlt_le_dec a lo), (Qlt_le_dec hi a),
           (Qlt_le_dec b lo), (Qlt_le_dec hi b);
    rewrite ?Hz; try easy; nra.
Qed.

(** ** The Euclidean norm *)

Lemma surd_ltb_true (s : Surd) (p : Q) :
  surd_ltb s p = true <-> 0 < p /\ radicand s < p * p.
Proof.
  unfold surd_ltb; rewrite !Qlt_alt.
  destruct (0 ?= p), (radicand s ?= p * p); intuition congruence.
Qed.

Lemma radicand_norm_nonneg (v : vec2) : 0 <= radicand (linalg_norm v).
Proof. destruct v as [x y]; cbn; nra. Qed.

Lemma surd_R_norm (v : vec2) :
  surd_R (linalg_norm v)
  = sqrt (Q2R (fst v) * Q2R (fst v) + Q2R (snd v) * Q2R (snd v))%R.
Proof. unfold surd_R; cbn. now rewrite Q2R_plus, !Q2R_mult. Qed.

(** On a radicand that is not negative, [surd_ltb] decides the comparison
    of the real square root with [p]. *)
Lemma surd_ltb_spec (s : Surd) (p : Q) :
  0 <= radicand s ->
  surd_ltb s p = true <-> (surd_R s < Q2R p)%R.
Proof.
  intros Hr; rewrite surd_ltb_true; unfold surd_R.
  apply Qle_Rle in Hr; rewrite RMicromega.Q2R_0 in Hr.
  split.
  - intros [Hp Hlt].
    apply Qlt_Rlt in Hp, Hlt.
    rewrite RMicromega.Q2R_0 in Hp; rewrite Q2R_mult in Hlt.
    rewrite <- (sqrt_square (Q2R p)) by lra.
    apply sqrt_lt_1; nra.
  - intros Hlt.
    pose proof (sqrt_pos (Q2R (radicand s))) as Hs.
    assert (Hp : (0 < Q2R p)%R) by lra.
    rewrite <- (sqrt_square (Q2R p)) in Hlt by lra.
    apply sqrt_lt_0_alt in Hlt.
    split; apply Rlt_Qlt.
    + now rewrite RMicromega.Q2R_0.
    + now rewrite Q2R_mult.
Qed.

Lemma surd_ltb_ext (r r' p : Q) :
  r == r' -> surd_ltb (Sqrt r) p = surd_ltb (Sqrt r') p.
Proof.
  intros Hr; apply Bool.eq_iff_eq_true.
  rewrite !surd_ltb_true; cbn [radicand]; now rewrite Hr.
Qed.

Lemma norm_euclid (u v : vec2) : surd_R (linalg_norm (vsub u v)) = euclid u v.
Proof.
  rewrite surd_R_norm; unfold euclid, vsub; cbn [fst snd].
  now rewrite !Q2R_minus.
Qed.

Lemma distance_ltb_spec (u v : vec2) (p : Q) :
  surd_ltb (linalg_norm (vsub u v)) p = true <-> (euclid u v < Q2R p)%R.
Proof.
  rewrite <- norm_euclid; apply surd_ltb_spec, radicand_norm_nonneg.
Qed.

(** Clipping both points to one box does not increase their distance. *)
Lemma vclip_contracts (u v : vec2) (m : Q) :
  0 <= m ->
  radicand (linalg_norm (vsub (vclip u (- m) m) (vclip v (- m) m)))
  <= radicand (linalg_norm (vsub u v)).
Proof.
  intros Hm; unfold linalg_norm, vsub, vclip; cbn [radicand fst snd].
  pose proof (clip_contracts (fst u) (fst v) (- m) m ltac:(lra)).
  pose proof (clip_contracts (snd u) (snd v) (- m) m ltac:(lra)).
  lra.
Qed.

(** ** The box constraints *)

Lemma within_range (m : Q) (v : vec2) :
  within m v <-> (- m <= fst v <= m) /\ (- m <= snd v <= m).
Proof. unfold within; now rewrite !Qabs_Qle_condition. Qed.

Lemma vclip_within (m : Q) (v : vec2) : 0 <= m -> within m (vclip v (- m) m).
Proof.
  intros Hm; apply within_range; unfold vclip; cbn [fst snd].
  split; apply clip_range; lra.
Qed.

Lemma zeros_within (m : Q) : 0 <= m -> within m zeros.
Proof. intros Hm; apply within_range; cbn; lra. Qed.

(** ** What [reset] and [step] do to the object *)

Section WorldFacts.
Context {G : Type} `{RandomSource G}.

Abbreviation World := (TargetHazardWorld G).

Lemma _get_obs_bodies (self : World) (b : Bodies) :
  bodies self = Some b -> _get_obs self = Ok (obs_of b).
Proof. unfold _get_obs; now intros ->. Qed.

Lemma _get_info_bodies (self : World) (b : Bodies) :
  bodies self = Some b -> _get_info self = Ok (info_of b).
Proof. unfold _get_info; now intros ->. Qed.

Lemma _render_frame_ok (self : World) (b : Bodies) :
  bodies self = Some b -> traces_ok self ->
  exists self',
    _render_frame self = Ok self' /\ bodies self' = Some b /\
    np_random self' = np_random self /\ config self' = config self /\
    traces_ok self'.
Proof.
  intros Hb Ht; unfold _render_frame, traces_ok, is_human in *.
  destruct self as [ws lp ml mv ma os as_ rm w c tr bd ob g pg];
    cbn in Hb, Ht; subst bd; cbn [window clock render_mode].
  destruct (bool_decide (rm = Some "human"%string)) eqn:Ehuman, tr.
  - destruct Ht as [l ->]; [easy |].
    destruct w, c; cbn; rewrite ?Ehuman; cbn;
      eexists; (split; [reflexivity |]); cbn; eauto 10.
  - destruct w, c; cbn; rewrite ?Ehuman; cbn;
      eexists; (split; [reflexivity |]); cbn; repeat split; easy.
  - destruct Ht as [l ->]; [easy |].
    destruct w, c; cbn; rewrite ?Ehuman; cbn;
      eexists; (split; [reflexivity |]); cbn; eauto 10.
  - destruct w, c; cbn; rewrite ?Ehuman; cbn;
      eexists; (split; [reflexivity |]); cbn; repeat split; easy.
Qed.

(** Rendering after [reset] or [step], only in human mode. *)
Lemma render_if_human_ok (self : World) (b : Bodies) :
  bodies self = Some b -> traces_ok self ->
  exists self',
    (if is_human self then _render_frame self else Ok self) = Ok self' /\
    bodies self' = Some b /\
    np_random self' = np_random self /\ config self' = config self /\
    traces_ok self'.
Proof.
  intros Hb Ht; destruct (is_human self).
  - now apply _render_frame_ok.
  - exists self; repeat split; easy.
Qed.

Lemma reset_ok (self : World) (seed : option N)
    (options : option (gmap string vec2)) :
  let b := initial_bodies self seed options in
  exists self',
    reset self seed options = Ok (self', (obs_of b, info_of b)) /\
    bodies self' = Some b /\
    np_random self' = snd (draw3 self seed) /\
    config self' = config self /\ traces_ok self'.
Proof.
  unfold reset, initial_bodies, draw3, draw2, draw1, draw, seeded.
  destruct (uniform _ _ (match seed with Some s => _ | None => _ end))
    as [d1 g1].
  cbn [fst snd].
  destruct (uniform _ _ g1) as [d2 g2]; cbn [fst snd].
  destruct (uniform _ _ g2) as [d3 g3]; cbn [fst snd].
  match goal with
  | |- context [if is_human ?w then _ else _] =>
      match goal with
      | |- context [Ok (_, (obs_of ?b, _))] =>
          destruct (render_if_human_ok w b) as (self' & Hr & Hb & Hg & Hc & Ht)
      end
  end.
  - now destruct (show_observation_traces _).
  - unfold traces_ok; destruct (show_observation_traces (set_bodies _ _)) eqn:E;
      cbn; [eauto | cbn in E; now rewrite E].
  - rewrite Hr; cbn [mbind result_bind].
    rewrite (_get_obs_bodies _ _ Hb); cbn [mbind result_bind].
    rewrite (_get_info_bodies _ _ Hb); cbn [mbind result_bind].
    exists self'; repeat split; try easy.
    + rewrite Hg; now destruct (show_observation_traces _).
    + rewrite Hc; now destruct (show_observation_traces _).
Qed.

Lemma step_ok (self : World) (b : Bodies) (action : Action) :
  bodies self = Some b -> traces_ok self ->
  let b' := advance self b action in
  exists self',
    step self action
    = Ok (self',
          (obs_of b', - (1 / render_fps),
           surd_ltb
             (linalg_norm (vsub (_agent_location b') (_target_location b')))
             (location_precision self),
           false, info_of b')) /\
    bodies self' = Some b' /\
    np_random self' = np_random self /\
    config self' = config self /\ traces_ok self'.
Proof.
  intros Hb Ht; unfold step, advance.
  destruct action as [[action0 action1] action2]; cbn [fst snd].
  rewrite Hb; cbn [getattr mbind result_bind].
  destruct (_step self (_agent_location b) _ action0 _) as [al av].
  destruct (_step self (_target_location b) _ action1 _) as [tl tv].
  destruct (_step self (_hazard_location b) _ action2 _) as [hl hv].
  cbn [fst snd].
  match goal with
  | |- context [if is_human ?w then _ else _] =>
      match goal with
      | |- context [Ok (_, (obs_of ?b, _, _, _, _))] =>
          destruct (render_if_human_ok w b) as (self' & Hr & Hb' & Hg & Hc & Ht')
      end
  end; [easy | exact Ht |].
  rewrite Hr; cbn [mbind result_bind].
  rewrite (_get_obs_bodies _ _ Hb'); cbn [mbind result_bind].
  rewrite (_get_info_bodies _ _ Hb'); cbn [mbind result_bind].
  exists self'; repeat split; easy.
Qed.

Lemma config_physics (self self' : World) :
  config self' = config self -> physics self' = physics self.
Proof. unfold config, physics; intros E; injection E; congruence. Qed.

Lemma _step_physics (self self' : World) (l v a : vec2) (dt : Q) :
  physics self' = physics self -> _step self' l v a dt = _step self l v a dt.
Proof. unfold physics, _step; intros E; injection E; congruence. Qed.

Lemma advance_physics (self self' : World) (b : Bodies) (a : Action) :
  physics self' = physics self -> advance self' b a = advance self b a.
Proof.
  intros E; unfold advance; now rewrite !(_step_physics self self') by easy.
Qed.

Lemma trajectory_physics (self self' : World) (actions : list Action) :
  physics self' = physics self ->
  forall b, trajectory self' b actions = trajectory self b actions.
Proof.
  intros E; induction actions as [| a rest IH]; intros b; cbn; [easy |].
  rewrite (advance_physics self self') by easy; rewrite IH.
  unfold outcome, physics in *; injection E; congruence.
Qed.

Lemma steps_ok (actions : list Action) :
  forall (self : World) (b : Bodies),
    bodies self = Some b -> traces_ok self ->
    exists self',
      steps self actions = Ok (self', trajectory self b actions) /\
      config self' = config self.
Proof.
  induction actions as [| a rest IH]; intros self b Hb Ht; cbn [steps trajectory].
  - now exists self.
  - destruct (step_ok self b a Hb Ht) as (self1 & Hs & Hb1 & _ & Hc1 & Ht1).
    rewrite Hs; cbn [mbind result_bind].
    destruct (IH self1 _ Hb1 Ht1) as (self2 & Hs2 & Hc2).
    rewrite Hs2; cbn [mbind result_bind].
    exists self2; split; [| congruence].
    now rewrite (trajectory_physics self self1) by now apply config_physics.
Qed.

Lemma trajectory_length (self : World) (actions : list Action) :
  forall b, length (trajectory self b actions) = length actions.
Proof. induction actions; intros b; cbn; auto. Qed.

Lemma episode_ok (self : World) (seed : option N)
    (options : option (gmap string vec2)) (actions : list Action) :
  let b := initial_bodies self seed options in
  exists self',
    episode self seed options actions
    = Ok (self', (obs_of b, info_of b), trajectory self b actions) /\
    config self' = config self.
Proof.
  intros b; unfold episode.
  destruct (reset_ok self seed options) as (self1 & Hr & Hb & _ & Hc & Ht).
  fold b in Hr, Hb; rewrite Hr; cbn [mbind result_bind].
  destruct (steps_ok actions self1 b Hb Ht) as (self2 & Hs & Hc2).
  rewrite Hs; cbn [mbind result_bind].
  exists self2; split; [| congruence].
  now rewrite (trajectory_physics self self1) by now apply config_physics.
Qed.

(** *** Bounds *)

Lemma _step_within (self : World) (l v a : vec2) (dt : Q) :
  0 <= max_absolute_location self -> 0 <= max_absolute_velocity self ->
  within (max_absolute_location self) (fst (_step self l v a dt)) /\
  within (max_absolute_velocity self) (snd (_step self l v a dt)).
Proof. intros Hl Hv; unfold _step; cbn [fst snd]; split; now apply vclip_within. Qed.

Lemma advance_bounded (self : World) (b : Bodies) (a : Action) :
  0 <= max_absolute_location self -> 0 <= max_absolute_velocity self ->
  bounded self (obs_of (advance self b a)).
Proof.
  intros Hl Hv; unfold bounded, obs_of, advance; cbn [_agent_location
    _agent_velocity _target_location _target_velocity _hazard_location
    _hazard_velocity].
  split; [| split]; apply _step_within; easy.
Qed.

Lemma trajectory_bounded (self : World) (actions : list Action) :
  0 <= max_absolute_location self -> 0 <= max_absolute_velocity self ->
  forall b,
    Forall (fun out => bounded self (fst (fst (fst (fst out)))))
      (trajectory self b actions).
Proof.
  intros Hl Hv; induction actions as [| a rest IH]; intros b; cbn [trajectory].
  - constructor.
  - constructor; [| apply IH].
    unfold outcome; cbn [fst]; now apply advance_bounded.
Qed.

Lemma draw_within (self : World) (g : G) :
  0 <= max_absolute_location self ->
  within (max_absolute_location self) (fst (draw self g)).
Proof.
  intros Hl; apply within_range; unfold draw.
  apply uniform_range; lra.
Qed.

Lemma options_get_within (m : Q) (options : option (gmap string vec2))
    (key : string) (dflt : vec2) :
  overrides_within m options -> key ∈ location_keys -> within m dflt ->
  within m (options_get options key dflt).
Proof.
  intros Ho Hk Hd; unfold options_get.
  destruct options as [o |]; [| easy].
  destruct (o !! key) as [v |] eqn:E; cbn; [| easy].
  now apply (Ho o key v).
Qed.

Lemma initial_bounded (self : World) (seed : option N)
    (options : option (gmap string vec2)) :
  0 <= max_absolute_location self -> 0 <= max_absolute_velocity self ->
  overrides_within (max_absolute_location self) options ->
  bounded self (obs_of (initial_bodies self seed options)).
Proof.
  intros Hl Hv Ho; unfold bounded, obs_of, initial_bodies; cbn [_agent_location
    _agent_velocity _target_location _target_velocity _hazard_location
    _hazard_velocity].
  assert (Hz : within (max_absolute_velocity self) zeros)
    by now apply zeros_within.
  assert (Hd : forall g, within (max_absolute_location self) (fst (draw self g)))
    by (intros g; now apply draw_within).
  assert (Hk : forall key dflt,
             key ∈ location_keys ->
             within (max_absolute_location self) dflt ->
             within (max_absolute_location self) (options_get options key dflt))
    by (intros key dflt; now apply options_get_within).
  unfold location_keys in Hk.
  split; [| split]; (split; [apply Hk; [set_solver | apply Hd] | exact Hz]).
Qed.

End WorldFacts.

(** * The claims *)

(** ** C1: positions and velocities stay in their boxes *)

(** C1, as amended.  For a configuration whose location and velocity bounds
    are not negative, every [reset] (any seed, any options) followed by any
    finite sequence of actions runs to the end, and every observation that a
    [step] returns has all positions within [max_absolute_location] and all
    velocities within [max_absolute_velocity] in absolute value, per
    component.  The observation that [reset] returns satisfies the same
    bounds when every position supplied in the options lies in the location
    box. *)
Theorem bounds_invariant {G : Type} `{RandomSource G}
    (self : TargetHazardWorld G) (seed : option N)
    (options : option (gmap string vec2)) (actions : list Action) :
  0 <= max_absolute_location self ->
  0 <= max_absolute_velocity self ->
  exists self' obs0 info0 outs,
    episode self seed options actions = Ok (self', (obs0, info0), outs) /\
    length outs = length actions /\
    (overrides_within (max_absolute_location self) options ->
     bounded self obs0) /\
    Forall (fun out => bounded self (fst (fst (fst (fst out))))) outs.
Proof.
  intros Hl Hv.
  destruct (episode_ok self seed options actions) as (self' & He & _).
  eexists self', _, _, _; split; [exact He |].
  split; [apply trajectory_length |].
  split; [now apply initial_bounded | now apply trajectory_bounded].
Qed.

Lemma bounds_invariant_witness :
  overrides_within 1 (Some {[ "agent_location"%string := (1 # 2, 0) ]}) /\
  exists self' obs0 info0 outs,
    episode (fresh None false) (Some 7%N)
      (Some {[ "agent_location"%string := (1 # 2, 0) ]})
      [((1, 1), (0, 0), (- (5), 3)); ((0, 0), (1, 0), (0, 0))]
    = Ok (self', (obs0, info0), outs) /\
    length outs = 2%nat /\
    (overrides_within 1 (Some {[ "agent_location"%string := (1 # 2, 0) ]}) ->
     bounded (fresh None false) obs0) /\
    Forall (fun out => bounded (fresh None false) (fst (fst (fst (fst out)))))
      outs.
Proof.
  split.
  - intros o key v [= <-] Hk Hv; unfold location_keys in Hk.
    rewrite !elem_of_cons, elem_of_nil in Hk.
    destruct Hk as [-> | [-> | [-> | []]]]; vm_compute in Hv;
      [| discriminate | discriminate].
    injection Hv as <-; split; vm_compute; discriminate.
  - apply (bounds_invariant (fresh None false) (Some 7%N)
             (Some {[ "agent_location"%string := (1 # 2, 0) ]})
             [((1, 1), (0, 0), (- (5), 3)); ((0, 0), (1, 0), (0, 0))]);
      vm_compute; discriminate.
Defined.

(** C1 as stated fails: with the default bounds (all 1), a [reset] whose
    options place the agent at (2, 0) returns an observation whose agent
    position is (2, 0), outside the location box. *)
Lemma bounds_counterexample :
  exists self' tl hl info,
    reset (fresh None false) (Some 7%N)
      (Some {[ "agent_location"%string := (2, 0) ]})
    = Ok (self', ((2, 0), zeros, tl, zeros, hl, zeros, info)) /\
    ~ bounded (fresh None false) ((2, 0), zeros, tl, zeros, hl, zeros) /\
    ~ Qabs 2 <= max_absolute_location (fresh None false).
Proof.
  eexists _, _, _, _; split; [vm_compute; reflexivity |].
  assert (Hn : ~ Qabs 2 <= max_absolute_location (fresh None false))
    by (intros Hq; vm_compute in Hq; now apply Hq).
  split; [| exact Hn].
  intros [[[Hx _] _] _]; now apply Hn.
Qed.


(** ** C2: the integrator *)

Lemma _step_advance_body {G : Type} `{RandomSource G}
    (self : TargetHazardWorld G) (l v a : vec2) :
  0 <= max_absolute_location self ->
  0 <= max_absolute_velocity self ->
  0 <= max_absolute_acceleration self ->
  _step self l v a (1 / render_fps)
  = advance_body (max_absolute_location self) (max_absolute_velocity self)
      (max_absolute_acceleration self) l v a.
Proof.
  intros Hl Hv Ha.
  change (1 / render_fps) with (1 # 24).
  unfold _step, advance_body, advance_axis, vclip, vadd, vscale; cbn [fst snd].
  rewrite !clip_clamp by lra; reflexivity.
Qed.

(** C2.  Under a configuration whose three bounds are not negative, [_step]
    called with [dt = 1/render_fps] returns, on each axis separately, the
    acceleration clamped to the acceleration bound, the velocity plus that
    acceleration times 1/24 clamped to the velocity bound, and the position
    plus the new velocity times 1/24 clamped to the location bound; it
    returns this pair and nothing else.  [step] applies it to the agent, the
    target and the hazard with the matching component of the action, stores
    and returns the result, and leaves the configuration and the random
    source as they were. *)
Theorem integrator_clamps_per_axis {G : Type} `{RandomSource G}
    (self : TargetHazardWorld G) (l v a : vec2)
    (b : Bodies) (a0 a1 a2 : vec2) :
  0 <= max_absolute_location self ->
  0 <= max_absolute_velocity self ->
  0 <= max_absolute_acceleration self ->
  bodies self = Some b -> traces_ok self ->
  let move :=
    advance_body (max_absolute_location self) (max_absolute_velocity self)
      (max_absolute_acceleration self) in
  _step self l v a (1 / render_fps) = move l v a /\
  exists self' reward terminated truncated info,
    step self (a0, a1, a2)
    = Ok (self',
          (fst (move (_agent_location b) (_agent_velocity b) a0),
           snd (move (_agent_location b) (_agent_velocity b) a0),
           fst (move (_target_location b) (_target_velocity b) a1),
           snd (move (_target_location b) (_target_velocity b) a1),
           fst (move (_hazard_location b) (_hazard_velocity b) a2),
           snd (move (_hazard_location b) (_hazard_velocity b) a2),
           reward, terminated, truncated, info)) /\
    option_map obs_of (bodies self')
    = Some
        (fst (move (_agent_location b) (_agent_velocity b) a0),
         snd (move (_agent_location b) (_agent_velocity b) a0),
         fst (move (_target_location b) (_target_velocity b) a1),
         snd (move (_target_location b) (_target_velocity b) a1),
         fst (move (_hazard_location b) (_hazard_velocity b) a2),
         snd (move (_hazard_location b) (_hazard_velocity b) a2)) /\
    config self' = config self /\
    np_random self' = np_random self.
Proof.
  intros Hl Hv Ha Hb Ht move; split; [now apply _step_advance_body |].
  destruct (step_ok self b (a0, a1, a2) Hb Ht) as (self' & Hs & Hb' & Hg & Hc & _).
  exists self'; do 4 eexists; split; [| split; [| split]].
  - rewrite Hs; unfold obs_of, advance; cbn [fst snd  _agent_location
      _agent_velocity _target_location _target_velocity _hazard_location
      _hazard_velocity].
    rewrite !_step_advance_body by easy; reflexivity.
  - rewrite Hb'; unfold obs_of, advance; cbn [option_map fst snd
      _agent_location _agent_velocity _target_location _target_velocity
      _hazard_location _hazard_velocity].
    rewrite !_step_advance_body by easy; reflexivity.
  - exact Hc.
  - exact Hg.
Qed.

Lemma integrator_clamps_per_axis_witness :
  let self := started None false (Some 7%N) None in
  let b := initial_bodies (fresh None false) (Some 7%N) None in
  let move := advance_body 1 1 1 in
  _step self (1 # 2, - (1)) (1, 0) (3, - (1 # 2)) (1 / render_fps)
  = move (1 # 2, - (1)) (1, 0) (3, - (1 # 2)) /\
  exists self' reward terminated truncated info,
    step self ((1, 1), (0, 0), (- (5), 3))
    = Ok (self',
          (fst (move (_agent_location b) (_agent_velocity b) (1, 1)),
           snd (move (_agent_location b) (_agent_velocity b) (1, 1)),
           fst (move (_target_location b) (_target_velocity b) (0, 0)),
           snd (move (_target_location b) (_target_velocity b) (0, 0)),
           fst (move (_hazard_location b) (_hazard_velocity b) (- (5), 3)),
           snd (move (_hazard_location b) (_hazard_velocity b) (- (5), 3)),
           reward, terminated, truncated, info)) /\
    option_map obs_of (bodies self')
    = Some
        (fst (move (_agent_location b) (_agent_velocity b) (1, 1)),
         snd (move (_agent_location b) (_agent_velocity b) (1, 1)),
         fst (move (_target_location b) (_target_velocity b) (0, 0)),
         snd (move (_target_location b) (_target_velocity b) (0, 0)),
         fst (move (_hazard_location b) (_hazard_velocity b) (- (5), 3)),
         snd (move (_hazard_location b) (_hazard_velocity b) (- (5), 3))) /\
    config self' = config self /\
    np_random self' = np_random self.
Proof.
  apply (integrator_clamps_per_axis (started None false (Some 7%N) None)
           (1 # 2, - (1)) (1, 0) (3, - (1 # 2))
           (initial_bodies (fresh None false) (Some 7%N) None)
           (1, 1) (0, 0) (- (5), 3)).
  - vm_compute; discriminate.
  - vm_compute; discriminate.
  - vm_compute; discriminate.
  - vm_compute; reflexivity.
  - intros Htr; vm_compute in Htr; discriminate.
Defined.

(** ** C3: termination *)

(** A body at rest that receives no acceleration is only clipped to the
    location box. *)
Lemma _step_at_rest {G : Type} `{RandomSource G}
    (self : TargetHazardWorld G) (l : vec2) :
  0 <= max_absolute_velocity self ->
  0 <= max_absolute_acceleration self ->
  let l' := fst (_step self l zeros zeros (1 / render_fps)) in
  let c := vclip l (- max_absolute_location self) (max_absolute_location self) in
  fst l' == fst c /\ snd l' == snd c.
Proof.
  intros Hv Ha; unfold _step, vclip, vadd, vscale, zeros; cbn [fst snd].
  assert (Ea : clip 0 (- max_absolute_acceleration self)
                 (max_absolute_acceleration self) == 0)
    by (apply clip_inside; lra).
  assert (Ev : clip 0 (- max_absolute_velocity self)
                 (max_absolute_velocity self) == 0)
    by (apply clip_inside; lra).
  assert (E0 : forall d, 0 + 0 * d == 0) by (intros; ring).
  assert (E1 : forall x d, x + 0 * d == x) by (intros; ring).
  rewrite Ea, E0, Ev, !E1; split; reflexivity.
Qed.

Lemma rest_radicand {G : Type} `{RandomSource G}
    (self : TargetHazardWorld G) (u v : vec2) :
  0 <= max_absolute_velocity self ->
  0 <= max_absolute_acceleration self ->
  radicand
    (linalg_norm
       (vsub (fst (_step self u zeros zeros (1 / render_fps)))
             (fst (_step self v zeros zeros (1 / render_fps)))))
  == radicand
       (linalg_norm
          (vsub
             (vclip u (- max_absolute_location self) (max_absolute_location self))
             (vclip v (- max_absolute_location self) (max_absolute_location self)))).
Proof.
  intros Hv Ha.
  destruct (_step_at_rest self u Hv Ha) as [Eux Euy].
  destruct (_step_at_rest self v Hv Ha) as [Evx Evy].
  unfold linalg_norm, vsub; cbn [radicand fst snd].
  now rewrite Eux, Euy, Evx, Evy.
Qed.

Lemma vclip_inside (m : Q) (u : vec2) :
  within m u -> fst (vclip u (- m) m) == fst u /\ snd (vclip u (- m) m) == snd u.
Proof.
  intros Hu; apply within_range in Hu; destruct Hu as [Hx Hy].
  unfold vclip; cbn [fst snd]; split; now apply clip_inside.
Qed.

(** The flag [step] computes when agent and target are at rest and receive
    no acceleration, from their positions before the step. *)
Lemma rest_terminated {G : Type} `{RandomSource G}
    (self : TargetHazardWorld G) (u v : vec2) :
  0 <= max_absolute_location self ->
  0 <= max_absolute_velocity self ->
  0 <= max_absolute_acceleration self ->
  let flag :=
    surd_ltb
      (linalg_norm
         (vsub (fst (_step self u zeros zeros (1 / render_fps)))
               (fst (_step self v zeros zeros (1 / render_fps)))))
      (location_precision self) in
  ((euclid u v < Q2R (location_precision self))%R -> flag = true) /\
  (within (max_absolute_location self) u ->
   within (max_absolute_location self) v ->
   ~ (euclid u v < Q2R (location_precision self))%R -> flag = false).
Proof.
  intros Hl Hv Ha flag.
  assert (Eflag :
    flag
    = surd_ltb
        (linalg_norm
           (vsub
              (vclip u (- max_absolute_location self) (max_absolute_location self))
              (vclip v (- max_absolute_location self) (max_absolute_location self))))
        (location_precision self)).
  { subst flag; unfold linalg_norm.
    apply surd_ltb_ext.
    exact (rest_radicand self u v Hv Ha). }
  rewrite Eflag; clear Eflag flag; split.
  - intros Hd; apply distance_ltb_spec in Hd.
    apply surd_ltb_true in Hd; destruct Hd as [Hp Hr].
    apply surd_ltb_true; split; [easy |].
    pose proof (vclip_contracts u v _ Hl); lra.
  - intros Hu Hw Hd.
    destruct (vclip_inside _ u Hu) as [Eux Euy].
    destruct (vclip_inside _ v Hw) as [Evx Evy].
    rewrite <- distance_ltb_spec in Hd.
    apply Bool.not_true_is_false; intros Ht; apply Hd.
    rewrite <- Ht; unfold linalg_norm; apply surd_ltb_ext.
    unfold vsub; cbn [fst snd].
    now rewrite Eux, Euy, Evx, Evy.
Qed.

(** C3, as amended.  From every state that a [reset] has prepared, [step]
    returns, and its [terminated] flag is true exactly when the Euclidean
    distance between the agent position and the target position of the
    returned observation (all bodies already integrated) is strictly
    below [location_precision].  Under a configuration whose bounds are
    not negative, with agent and target at rest and given zero acceleration:
    a distance below [location_precision] before the step gives
    [terminated = true]; a distance not below it gives [terminated = false]
    provided both positions lie in the location box. *)
Theorem termination_rule {G : Type} `{RandomSource G}
    (self : TargetHazardWorld G) (b : Bodies) (action : Action) :
  bodies self = Some b -> traces_ok self ->
  exists self' al av tl tv hl hv reward terminated truncated info,
    step self action
    = Ok (self', (al, av, tl, tv, hl, hv, reward, terminated, truncated, info)) /\
    (terminated = true <->
     (euclid al tl < Q2R (location_precision self))%R) /\
    (0 <= max_absolute_location self ->
     0 <= max_absolute_velocity self ->
     0 <= max_absolute_acceleration self ->
     _agent_velocity b = zeros -> _target_velocity b = zeros ->
     fst (fst action) = zeros -> snd (fst action) = zeros ->
     ((euclid (_agent_location b) (_target_location b)
       < Q2R (location_precision self))%R ->
      terminated = true) /\
     (within (max_absolute_location self) (_agent_location b) ->
      within (max_absolute_location self) (_target_location b) ->
      ~ (euclid (_agent_location b) (_target_location b)
         < Q2R (location_precision self))%R ->
      terminated = false)).
Proof.
  intros Hb Ht.
  destruct (step_ok self b action Hb Ht) as (self' & Hs & _).
  unfold obs_of in Hs.
  eexists self', _, _, _, _, _, _, _, _, _, _; split; [exact Hs |].
  split; [apply distance_ltb_spec |].
  intros Hl Hv Ha Hav Htv Ha0 Ha1.
  unfold advance; cbn [_agent_location _target_location].
  rewrite Hav, Htv, Ha0, Ha1.
  now apply rest_terminated.
Qed.

Lemma termination_rule_witness :
  let self :=
    started None false (Some 7%N)
      (Some {[ "agent_location"%string := (0, 0);
               "target_location"%string := (0, 5 # 1000) ]}) in
  let b :=
    initial_bodies (fresh None false) (Some 7%N)
      (Some {[ "agent_location"%string := (0, 0);
               "target_location"%string := (0, 5 # 1000) ]}) in
  exists self' al av tl tv hl hv reward terminated truncated info,
    step self (zeros, zeros, zeros)
    = Ok (self', (al, av, tl, tv, hl, hv, reward, terminated, truncated, info)) /\
    (terminated = true <->
     (euclid al tl < Q2R (location_precision self))%R) /\
    (0 <= max_absolute_location self ->
     0 <= max_absolute_velocity self ->
     0 <= max_absolute_acceleration self ->
     _agent_velocity b = zeros -> _target_velocity b = zeros ->
     fst (fst (zeros, zeros, zeros)) = zeros ->
     snd (fst (zeros, zeros, zeros)) = zeros ->
     ((euclid (_agent_location b) (_target_location b)
       < Q2R (location_precision self))%R ->
      terminated = true) /\
     (within (max_absolute_location self) (_agent_location b) ->
      within (max_absolute_location self) (_target_location b) ->
      ~ (euclid (_agent_location b) (_target_location b)
         < Q2R (location_precision self))%R ->
      terminated = false)).
Proof.
  apply (termination_rule
           (started None false (Some 7%N)
              (Some {[ "agent_location"%string := (0, 0);
                       "target_location"%string := (0, 5 # 1000) ]}))
           (initial_bodies (fresh None false) (Some 7%N)
              (Some {[ "agent_location"%string := (0, 0);
                       "target_location"%string := (0, 5 # 1000) ]}))
           (zeros, zeros, zeros)).
  - vm_compute; reflexivity.
  - intros Htr; vm_compute in Htr; discriminate.
Defined.

(** C3 as stated fails: with the default configuration, agent at (2, 0) and
    target at (3, 0), both at rest, are at distance 1, which is not below
    [location_precision = 1/100]; the zero-acceleration step clips both to
    (1, 0) and returns [terminated = true]. *)
Lemma termination_counterexample :
  let self :=
    started None false (Some 7%N)
      (Some {[ "agent_location"%string := (2, 0);
               "target_location"%string := (3, 0) ]}) in
  exists hl self' al av tl tv hl' hv' info,
    bodies self
    = Some {| _agent_location := (2, 0); _agent_velocity := zeros;
              _target_location := (3, 0); _target_velocity := zeros;
              _hazard_location := hl; _hazard_velocity := zeros |} /\
    ~ (euclid (2, 0)%Q (3, 0)%Q < Q2R (location_precision self))%R /\
    step self (zeros, zeros, zeros)
    = Ok (self', (al, av, tl, tv, hl', hv', - (1 # 24), true, false, info)).
Proof.
  eexists _, _, _, _, _, _, _, _, _; split; [vm_compute; reflexivity |].
  split.
  - rewrite <- distance_ltb_spec; vm_compute; discriminate.
  - vm_compute; reflexivity.
Qed.

(** ** C4: the reward *)

(** C4.  From every state that a [reset] has prepared and for every action,
    [step] returns the reward -1/24, whatever the flag [terminated] and
    whatever the positions of the bodies. *)
Theorem reward_is_minus_dt {G : Type} `{RandomSource G}
    (self : TargetHazardWorld G) (b : Bodies) (action : Action) :
  bodies self = Some b -> traces_ok self ->
  exists self' obs terminated truncated info,
    step self action
    = Ok (self', (obs, - (1 # 24), terminated, truncated, info)).
Proof.
  intros Hb Ht.
  destruct (step_ok self b action Hb Ht) as (self' & Hs & _).
  eexists self', _, _, _, _; exact Hs.
Qed.

Lemma reward_is_minus_dt_witness :
  exists self' obs terminated truncated info,
    step (started (Some "human"%string) true (Some 11%N) None)
      ((1, 0), (0, 1), (- (1), 0))
    = Ok (self', (obs, - (1 # 24), terminated, truncated, info)).
Proof.
  apply (reward_is_minus_dt
           (started (Some "human"%string) true (Some 11%N) None)
           (initial_bodies (fresh (Some "human"%string) true) (Some 11%N) None)
           ((1, 0), (0, 1), (- (1), 0))).
  - vm_compute; reflexivity.
  - intros _; vm_compute; eexists; reflexivity.
Defined.

(** ** C7: no truncation *)

(** C7.  Whatever the state and the action, a result of [step] carries
    [truncated = false]; and from every state that a [reset] has prepared
    [step] does return such a result. *)
Theorem never_truncated {G : Type} `{RandomSource G}
    (self : TargetHazardWorld G) (action : Action) :
  (forall self' obs reward terminated truncated info,
      step self action = Ok (self', (obs, reward, terminated, truncated, info)) ->
      truncated = false) /\
  (forall b, bodies self = Some b -> traces_ok self ->
     exists self' obs reward terminated info,
       step self action = Ok (self', (obs, reward, terminated, false, info))).
Proof.
  split.
  - intros self' obs reward terminated truncated info.
    unfold step; destruct action as [[a0 a1] a2].
    destruct (getattr (bodies self)) as [b |]; cbn [mbind result_bind]; [| easy].
    destruct (_step self (_agent_location b) _ a0 _).
    destruct (_step self (_target_location b) _ a1 _).
    destruct (_step self (_hazard_location b) _ a2 _).
    destruct (if is_human _ then _ else _) as [self1 |];
      cbn [mbind result_bind]; [| easy].
    destruct (_get_obs self1); cbn [mbind result_bind]; [| easy].
    destruct (_get_info self1); cbn [mbind result_bind]; [| easy].
    intros [= _ _ _ _ <- _]; reflexivity.
  - intros b Hb Ht.
    destruct (step_ok self b action Hb Ht) as (self' & Hs & _).
    eexists self', _, _, _, _; exact Hs.
Qed.

Lemma never_truncated_witness :
  exists self' obs reward terminated info,
    step (started None false (Some 7%N) None) ((1, 1), (0, 0), (- (5), 3))
    = Ok (self', (obs, reward, terminated, false, info)).
Proof.
  apply (proj2 (never_truncated (started None false (Some 7%N) None)
                  ((1, 1), (0, 0), (- (5), 3)))
           (initial_bodies (fresh None false) (Some 7%N) None)).
  - vm_compute; reflexivity.
  - intros Htr; vm_compute in Htr; discriminate.
Defined.

(** ** C5: seeded runs are reproducible *)

Lemma initial_bodies_seeded {G : Type} `{RandomSource G}
    (run1 run2 : TargetHazardWorld G) (seed : N)
    (options : option (gmap string vec2)) :
  physics run1 = physics run2 ->
  initial_bodies run1 (Some seed) options
  = initial_bodies run2 (Some seed) options.
Proof.
  unfold physics; intros [= _ E _ _].
  unfold initial_bodies, draw3, draw2, draw1, draw, seeded.
  now rewrite E.
Qed.

(** C5.  Two objects with the same bounds and the same precision, in
    whatever state each of them is (generator, bodies, window, render mode),
    that are reset with the same seed and the same options and then given
    the same actions, both run to the end and return the same first
    observation and info and the same sequence of observations, rewards,
    flags and infos.  The generator is a function of the seed here, as
    NumPy documents it. *)
Theorem seeded_runs_agree {G : Type} `{RandomSource G}
    (run1 run2 : TargetHazardWorld G) (seed : N)
    (options : option (gmap string vec2)) (actions : list Action) :
  physics run1 = physics run2 ->
  exists end1 end2 first outs,
    episode run1 (Some seed) options actions = Ok (end1, first, outs) /\
    episode run2 (Some seed) options actions = Ok (end2, first, outs).
Proof.
  intros E.
  destruct (episode_ok run1 (Some seed) options actions) as (end1 & H1 & _).
  destruct (episode_ok run2 (Some seed) options actions) as (end2 & H2 & _).
  rewrite <- (initial_bodies_seeded run1 run2) in H2 by easy.
  rewrite (trajectory_physics run1 run2) in H2 by easy.
  eexists end1, end2, _, _; split; [exact H1 | exact H2].
Qed.

Lemma seeded_runs_agree_witness :
  exists end1 end2 first outs,
    episode (fresh None false) (Some 42%N)
      (Some {[ "hazard_location"%string := (1, 1) ]})
      [((1, 1), (0, 0), (- (5), 3)); ((0, - (1)), (1, 0), (0, 0))]
    = Ok (end1, first, outs) /\
    episode (started (Some "human"%string) true (Some 3%N) None) (Some 42%N)
      (Some {[ "hazard_location"%string := (1, 1) ]})
      [((1, 1), (0, 0), (- (5), 3)); ((0, - (1)), (1, 0), (0, 0))]
    = Ok (end2, first, outs).
Proof.
  apply (seeded_runs_agree (fresh None false)
           (started (Some "human"%string) true (Some 3%N) None) 42%N
           (Some {[ "hazard_location"%string := (1, 1) ]})
           [((1, 1), (0, 0), (- (5), 3)); ((0, - (1)), (1, 0), (0, 0))]).
  vm_compute; reflexivity.
Defined.

(** ** C6 and C10: what [reset] draws and what it takes from the options *)

Lemma options_get_supplied (options : option (gmap string vec2))
    (key : string) (dflt : vec2) :
  options_get options key dflt
  = match supplied options key with Some P => P | None => dflt end.
Proof.
  unfold options_get, supplied; destruct options as [o |]; [| easy].
  now destruct (o !! key).
Qed.

(** C6.  For every seed and every options mapping, [reset] sets the six
    body attributes of the object and returns them as the observation,
    an observation in which the three velocities are the zero vector, and in
    which the position of each body is the vector the options supply under
    that body's key when they supply one, whatever the seed, and otherwise
    the draw [uniform(-max_absolute_location, max_absolute_location, size=2)]
    of the random source made for that body (the source being re-seeded
    when a seed is given), which lies in the location box when the bound is
    not negative.  That such a draw is uniformly distributed is NumPy's
    contract. *)
Theorem reset_positions_and_velocities {G : Type} `{RandomSource G}
    (self : TargetHazardWorld G) (seed : option N)
    (options : option (gmap string vec2)) :
  let lo := - max_absolute_location self in
  let hi := max_absolute_location self in
  let g0 :=
    match seed with Some s => default_rng s | None => np_random self end in
  let d1 := uniform lo hi g0 in
  let d2 := uniform lo hi (snd d1) in
  let d3 := uniform lo hi (snd d2) in
  exists self' al av tl tv hl hv info,
    reset self seed options = Ok (self', (al, av, tl, tv, hl, hv, info)) /\
    bodies self'
    = Some {| _agent_location := al; _agent_velocity := av;
              _target_location := tl; _target_velocity := tv;
              _hazard_location := hl; _hazard_velocity := hv |} /\
    av = zeros /\ tv = zeros /\ hv = zeros /\
    al = match supplied options "agent_location" with
         | Some P => P
         | None => fst d1
         end /\
    tl = match supplied options "target_location" with
         | Some P => P
         | None => fst d2
         end /\
    hl = match supplied options "hazard_location" with
         | Some P => P
         | None => fst d3
         end /\
    (0 <= hi -> within hi (fst d1) /\ within hi (fst d2) /\ within hi (fst d3)).
Proof.
  intros lo hi g0 d1 d2 d3.
  destruct (reset_ok self seed options) as (self' & Hr & Hb & _).
  unfold obs_of, initial_bodies in Hr, Hb; cbn [_agent_location
    _agent_velocity _target_location _target_velocity _hazard_location
    _hazard_velocity] in Hr.
  rewrite !options_get_supplied in Hr, Hb.
  eexists self', _, _, _, _, _, _, _; split; [exact Hr |].
  split; [exact Hb |].
  do 6 (split; [reflexivity |]).
  intros Hhi; split; [| split]; now apply draw_within.
Qed.

Lemma reset_positions_and_velocities_witness :
  exists self1 tl1 hl1 info1 self2 tl2 hl2 info2,
    reset (fresh None false) (Some 1%N)
      (Some {[ "agent_location"%string := (3 # 10, - (7 # 10)) ]})
    = Ok (self1, ((3 # 10, - (7 # 10)), zeros, tl1, zeros, hl1, zeros, info1)) /\
    bodies self1
    = Some {| _agent_location := (3 # 10, - (7 # 10)); _agent_velocity := zeros;
              _target_location := tl1; _target_velocity := zeros;
              _hazard_location := hl1; _hazard_velocity := zeros |} /\
    reset (fresh None false) (Some 2%N)
      (Some {[ "agent_location"%string := (3 # 10, - (7 # 10)) ]})
    = Ok (self2, ((3 # 10, - (7 # 10)), zeros, tl2, zeros, hl2, zeros, info2)).
Proof.
  destruct (reset_positions_and_velocities (fresh None false) (Some 1%N)
              (Some {[ "agent_location"%string := (3 # 10, - (7 # 10)) ]}))
    as (self1 & al1 & av1 & tl1 & tv1 & hl1 & hv1 & info1
        & Hr1 & Hb1 & -> & -> & -> & -> & _).
  destruct (reset_positions_and_velocities (fresh None false) (Some 2%N)
              (Some {[ "agent_location"%string := (3 # 10, - (7 # 10)) ]}))
    as (self2 & al2 & av2 & tl2 & tv2 & hl2 & hv2 & info2
        & Hr2 & _ & -> & -> & -> & -> & _).
  exists self1, tl1, hl1, info1, self2, tl2, hl2, info2.
  split; [exact Hr1 |]; split; [exact Hb1 | exact Hr2].
Defined.

(** C10.  Whatever the options, [reset] leaves the random source in the
    state reached after three draws made in a row from the (re-seeded or
    current) generator, the first for the agent, the second for the
    target, the third for the hazard.  So two resets from the same state
    with the same seed and different options leave the same generator, and
    a body that neither options mapping overrides gets the same position
    in both: its own draw. *)
Theorem reset_always_draws_three {G : Type} `{RandomSource G}
    (self : TargetHazardWorld G) (seed : option N)
    (options1 options2 : option (gmap string vec2)) :
  let lo := - max_absolute_location self in
  let hi := max_absolute_location self in
  let g0 :=
    match seed with Some s => default_rng s | None => np_random self end in
  let d1 := uniform lo hi g0 in
  let d2 := uniform lo hi (snd d1) in
  let d3 := uniform lo hi (snd d2) in
  exists self1 obs1 info1 self2 obs2 info2,
    reset self seed options1 = Ok (self1, (obs1, info1)) /\
    reset self seed options2 = Ok (self2, (obs2, info2)) /\
    np_random self1 = snd d3 /\ np_random self2 = snd d3 /\
    (supplied options1 "agent_location" = None ->
     supplied options2 "agent_location" = None ->
     agent_position obs1 = fst d1 /\ agent_position obs2 = fst d1) /\
    (supplied options1 "target_location" = None ->
     supplied options2 "target_location" = None ->
     target_position obs1 = fst d2 /\ target_position obs2 = fst d2) /\
    (supplied options1 "hazard_location" = None ->
     supplied options2 "hazard_location" = None ->
     hazard_position obs1 = fst d3 /\ hazard_position obs2 = fst d3).
Proof.
  intros lo hi g0 d1 d2 d3.
  destruct (reset_ok self seed options1) as (self1 & Hr1 & _ & Hg1 & _).
  destruct (reset_ok self seed options2) as (self2 & Hr2 & _ & Hg2 & _).
  eexists self1, _, _, self2, _, _.
  split; [exact Hr1 |]; split; [exact Hr2 |].
  split; [exact Hg1 |]; split; [exact Hg2 |].
  unfold obs_of, initial_bodies, agent_position, target_position,
    hazard_position; cbn [_agent_location _target_location _hazard_location].
  rewrite !options_get_supplied.
  split; [| split]; intros -> ->; split; reflexivity.
Qed.

Lemma reset_always_draws_three_witness :
  let d1 := uniform (- (1)) 1 (default_rng 5%N) in
  let d2 := uniform (- (1)) 1 (snd d1) in
  let d3 := uniform (- (1)) 1 (snd d2) in
  exists self1 obs1 info1 self2 obs2 info2,
    reset (fresh None false) (Some 5%N) None = Ok (self1, (obs1, info1)) /\
    reset (fresh None false) (Some 5%N)
      (Some {[ "agent_location"%string := (0, 0);
               "target_location"%string := (1 # 2, 1 # 2) ]})
    = Ok (self2, (obs2, info2)) /\
    np_random self1 = snd d3 /\ np_random self2 = snd d3 /\
    hazard_position obs1 = fst d3 /\ hazard_position obs2 = fst d3.
Proof.
  destruct (reset_always_draws_three (fresh None false) (Some 5%N) None
              (Some {[ "agent_location"%string := (0, 0);
                       "target_location"%string := (1 # 2, 1 # 2) ]}))
    as (self1 & obs1 & info1 & self2 & obs2 & info2
        & Hr1 & Hr2 & Hg1 & Hg2 & _ & _ & Hh).
  exists self1, obs1, info1, self2, obs2, info2.
  split; [exact Hr1 |]; split; [exact Hr2 |].
  split; [exact Hg1 |]; split; [exact Hg2 |].
  apply Hh; vm_compute; reflexivity.
Defined.

(** ** C8: construction *)

Lemma spaces_Box_symmetric (m : Q) :
  spaces_Box (- m) m
  = if Qle_bool 0 m then Ok {| low := - m; high := m |} else Raise ValueError.
Proof.
  unfold spaces_Box.
  destruct (Qle_bool (- m) m) eqn:E1, (Qle_bool 0 m) eqn:E2; try reflexivity.
  - apply Qle_bool_iff in E1.
    assert (E : Qle_bool 0 m = true) by (apply Qle_bool_iff; lra).
    congruence.
  - apply Qle_bool_iff in E2.
    assert (E : Qle_bool (- m) m = true) by (apply Qle_bool_iff; lra).
    congruence.
Qed.

Lemma mode_allowed (mode : option string) :
  match mode with
  | None => true
  | Some m => bool_decide (m ∈ render_modes)
  end = true
  <-> mode ∈ allowed_render_modes.
Proof.
  unfold allowed_render_modes, render_modes; destruct mode as [m |].
  - rewrite bool_decide_eq_true, !elem_of_cons, !elem_of_nil.
    split.
    + intros [-> | [-> | []]]; auto.
    + intros [[=] | [[= ->] | [[= ->] | []]]]; auto.
  - split; [intros _; apply list_elem_of_here | reflexivity].
Qed.

(** The three outcomes of the constructor. *)
Lemma __init___cases {G : Type} `{RandomSource G}
    (entropy : G) (pg : Pygame) (mode : option string) (size : Z)
    (precision max_location max_velocity max_acceleration : Q)
    (traces : bool) :
  __init__ entropy pg mode size precision max_location max_velocity
    max_acceleration traces
  = if Qle_bool 0 max_location && Qle_bool 0 max_velocity
       && Qle_bool 0 max_acceleration
    then
      if match mode with
         | None => true
         | Some m => bool_decide (m ∈ render_modes)
         end
      then Ok (constructed entropy pg mode size precision max_location
                 max_velocity max_acceleration traces)
      else Raise AssertionError
    else Raise ValueError.
Proof.
  unfold __init__; rewrite !spaces_Box_symmetric.
  destruct (Qle_bool 0 max_location); [| reflexivity].
  destruct (Qle_bool 0 max_velocity); [| reflexivity].
  destruct (Qle_bool 0 max_acceleration); reflexivity.
Qed.

Lemma bounds_accepted (max_location max_velocity max_acceleration : Q) :
  Qle_bool 0 max_location && Qle_bool 0 max_velocity
    && Qle_bool 0 max_acceleration = true
  <-> 0 <= max_location /\ 0 <= max_velocity /\ 0 <= max_acceleration.
Proof. rewrite !andb_true_iff, !Qle_bool_iff; tauto. Qed.

(** C8, as amended.  [__init__] fails in two ways and no other.  It raises
    a [ValueError] exactly when one of the three bounds
    [max_absolute_location], [max_absolute_velocity],
    [max_absolute_acceleration] is negative: the boxes of the spaces, built
    before the assert, refuse a lower bound above the upper one.  It raises
    an [AssertionError] exactly when the bounds are not negative and
    [render_mode] is none of [None], ["human"], ["rgb_array"].  Otherwise it
    returns the object with every argument stored as given, whatever
    [window_size], [location_precision] and [show_observation_traces] are,
    no window, no clock and no bodies. *)
Theorem construction_outcomes {G : Type} `{RandomSource G}
    (entropy : G) (pg : Pygame) (mode : option string) (size : Z)
    (precision max_location max_velocity max_acceleration : Q)
    (traces : bool) :
  let built :=
    __init__ entropy pg mode size precision max_location max_velocity
      max_acceleration traces in
  (built = Raise ValueError
   <-> max_location < 0 \/ max_velocity < 0 \/ max_acceleration < 0) /\
  (built = Raise AssertionError
   <-> 0 <= max_location /\ 0 <= max_velocity /\ 0 <= max_acceleration /\
       mode ∉ allowed_render_modes) /\
  ((exists self,
       built = Ok self /\
       render_mode self = mode /\ window_size self = size /\
       location_precision self = precision /\
       max_absolute_location self = max_location /\
       max_absolute_velocity self = max_velocity /\
       max_absolute_acceleration self = max_acceleration /\
       show_observation_traces self = traces /\
       window self = None /\ clock self = None /\ bodies self = None)
   <-> 0 <= max_location /\ 0 <= max_velocity /\ 0 <= max_acceleration /\
       mode ∈ allowed_render_modes).
Proof.
  intros built; subst built; rewrite __init___cases.
  pose proof (bounds_accepted max_location max_velocity max_acceleration) as Hb.
  pose proof (mode_allowed mode) as Hm.
  destruct (Qle_bool 0 max_location && Qle_bool 0 max_velocity
            && Qle_bool 0 max_acceleration).
  - assert (Hpos : 0 <= max_location /\ 0 <= max_velocity
                   /\ 0 <= max_acceleration) by now apply Hb.
    destruct Hpos as (Hl & Hv & Ha).
    destruct (match mode with None => true | Some m => _ end).
    + assert (Hin : mode ∈ allowed_render_modes) by now apply Hm.
      split; [split; [discriminate | intros [? | [? | ?]]; exfalso; lra] |].
      split; [split; [discriminate | intros (_ & _ & _ & Hn); now destruct Hn] |].
      split; [easy |].
      intros _; eexists; split; [reflexivity |]; cbn; repeat split.
    + assert (Hin : mode ∉ allowed_render_modes)
        by (intros Hin; apply Hm in Hin; discriminate).
      split; [split; [discriminate | intros [? | [? | ?]]; exfalso; lra] |].
      split; [easy |].
      split; [intros (self & Hs & _); discriminate | intros (_ & _ & _ & Hi)].
      now destruct Hin.
  - assert (Hneg : max_location < 0 \/ max_velocity < 0 \/ max_acceleration < 0).
    { destruct (Qlt_le_dec max_location 0); [auto |].
      destruct (Qlt_le_dec max_velocity 0); [auto |].
      destruct (Qlt_le_dec max_acceleration 0); [auto |].
      assert (E : false = true) by now apply Hb.
      discriminate. }
    split; [easy |].
    split; [split; [discriminate | intros (? & ? & ? & _); exfalso; lra] |].
    split; [intros (self & Hs & _); discriminate |].
    intros (? & ? & ? & _); exfalso; lra.
Qed.

Lemma construction_outcomes_witness :
  __init__ 2024%N pygame_off (Some "ansi"%string) 500 (1 # 100) 1 1 1 false
  = Raise AssertionError /\
  exists self,
    __init__ 2024%N pygame_off (Some "rgb_array"%string) (- 3) (- (1)) 2
      0 7 true
    = Ok self /\
    location_precision self = - (1).
Proof.
  split.
  - apply (proj1 (proj2 (construction_outcomes 2024%N pygame_off
                           (Some "ansi"%string) 500 (1 # 100) 1 1 1 false))).
    repeat (split; [vm_compute; discriminate |]).
    unfold allowed_render_modes; intros Hin.
    repeat (apply elem_of_cons in Hin; destruct Hin as [Hin | Hin];
            [discriminate |]).
    now apply elem_of_nil in Hin.
  - destruct (proj2 (proj2 (proj2 (construction_outcomes 2024%N pygame_off
                                     (Some "rgb_array"%string) (- 3) (- (1)) 2
                                     0 7 true))))
      as (self & Hs & _ & _ & Hp & _).
    + repeat (split; [vm_compute; discriminate |]).
      unfold allowed_render_modes; rewrite !elem_of_cons; auto.
    + exists self; split; [exact Hs | exact Hp].
Defined.

(** C8 as stated fails: with [render_mode = None], which is allowed, and
    [max_absolute_location = -1], the first box of the observation space
    has its lower bound 1 above its upper bound -1 and the construction
    raises a [ValueError]. *)
Lemma construction_counterexample :
  None ∈ allowed_render_modes /\
  __init__ 2024%N pygame_off None 500 (1 # 100) (- (1)) 1 1 false
  = Raise ValueError.
Proof. split; [apply list_elem_of_here | reflexivity]. Qed.

(** ** C9: [close] *)

(** C9.  [close] is a function of the object alone and always returns:
    closing twice leaves the same state as closing once, closing an object
    that has no window changes nothing, and closing one that has a window
    shuts pygame and its display down. *)
Theorem close_idempotent {G : Type} `{RandomSource G}
    (self : TargetHazardWorld G) :
  close (close self) = close self /\
  (window self = None -> close self = self) /\
  (is_Some (window self) -> pygame (close self) = pygame_off).
Proof.
  unfold close; destruct self as [ws lp ml mv ma os as_ rm w c tr bd ob g pg].
  cbn [window]; destruct w as [w |]; cbn.
  - split; [reflexivity |]; split; [discriminate | reflexivity].
  - split; [reflexivity |]; split; [reflexivity |].
    intros [w Hw]; discriminate.
Qed.

Lemma close_idempotent_witness :
  (window (fresh None false) = None /\
   close (fresh None false) = fresh None false) /\
  (is_Some (window (started (Some "human"%string) false (Some 1%N) None)) /\
   pygame (close (started (Some "human"%string) false (Some 1%N) None))
   = pygame_off).
Proof.
  split.
  - split; [reflexivity |].
    apply (proj1 (proj2 (close_idempotent (fresh None false)))); reflexivity.
  - assert (Hw : is_Some
                   (window (started (Some "human"%string) false (Some 1%N) None)))
      by (vm_compute; eexists; reflexivity).
    split; [exact Hw |].
    apply (proj2 (proj2 (close_idempotent
                           (started (Some "human"%string) false (Some 1%N) None)))).
    exact Hw.
Defined.

(** * Further properties of the code *)

(** ** Effects of a frame on the object *)

Section FrameFacts.
Context {G : Type} `{RandomSource G}.

Abbreviation World := (TargetHazardWorld G).

Lemma config_is_human (self self' : World) :
  config self' = config self -> is_human self' = is_human self.
Proof. unfold config, is_human; intros [= _ _ _ _ _ -> _ _ _]; reflexivity. Qed.

Lemma config_traces (self self' : World) :
  config self' = config self ->
  show_observation_traces self' = show_observation_traces self.
Proof. unfold config; now intros [= _ _ _ _ _ _ -> _ _]. Qed.

Lemma config_window_size (self self' : World) :
  config self' = config self -> window_size self' = window_size self.
Proof. unfold config; now intros [= -> _ _ _ _ _ _ _ _]. Qed.

Lemma config_max_location (self self' : World) :
  config self' = config self ->
  max_absolute_location self' = max_absolute_location self.
Proof. unfold config; now intros [= _ _ -> _ _ _ _ _ _]. Qed.

(** Everything [_render_frame] does to an object whose bodies exist. *)
Lemma _render_frame_effect (self : World) (b : Bodies) :
  bodies self = Some b -> traces_ok self ->
  exists self',
    _render_frame self = Ok self' /\
    bodies self' = Some b /\
    np_random self' = np_random self /\ config self' = config self /\
    window self' = window_after_frame self /\
    clock self' = clock_after_frame self /\
    pygame self' = pygame_after_frame self /\
    observations self'
    = if show_observation_traces self
      then option_map (fun l => l ++ [obs_of b]) (observations self)
      else observations self.
Proof.
  intros Hb Ht.
  unfold _render_frame, traces_ok, window_after_frame, clock_after_frame,
    pygame_after_frame, is_human in *.
  destruct self as [ws lp ml mv ma os as_ rm w c tr bd ob g pg];
    cbn in Hb, Ht; subst bd; cbn [window clock render_mode pygame
      show_observation_traces observations window_size].
  destruct (bool_decide (rm = Some "human"%string)) eqn:Ehuman, tr.
  - destruct Ht as [l ->]; [easy |].
    destruct w, c; cbn; rewrite ?Ehuman; cbn;
      eexists; (split; [reflexivity |]); cbn; repeat split; reflexivity.
  - destruct w, c; cbn; rewrite ?Ehuman; cbn;
      eexists; (split; [reflexivity |]); cbn; repeat split; reflexivity.
  - destruct Ht as [l ->]; [easy |].
    destruct w, c; cbn; rewrite ?Ehuman; cbn;
      eexists; (split; [reflexivity |]); cbn; repeat split; reflexivity.
  - destruct w, c; cbn; rewrite ?Ehuman; cbn;
      eexists; (split; [reflexivity |]); cbn; repeat split; reflexivity.
Qed.

Lemma window_after_frame_not_human (self : World) :
  is_human self = false ->
  window_after_frame self = window self /\
  clock_after_frame self = clock self /\
  pygame_after_frame self = pygame self.
Proof.
  intros E; unfold window_after_frame, clock_after_frame, pygame_after_frame.
  rewrite E; now destruct (window self), (clock self).
Qed.

(** The frame that [reset] and [step] draw in human mode only. *)
Lemma render_if_human_effect (self : World) (b : Bodies) :
  bodies self = Some b -> traces_ok self ->
  exists self',
    (if is_human self then _render_frame self else Ok self) = Ok self' /\
    bodies self' = Some b /\
    np_random self' = np_random self /\ config self' = config self /\
    window self' = window_after_frame self /\
    clock self' = clock_after_frame self /\
    pygame self' = pygame_after_frame self /\
    observations self'
    = if show_observation_traces self && is_human self
      then option_map (fun l => l ++ [obs_of b]) (observations self)
      else observations self.
Proof.
  intros Hb Ht; destruct (is_human self) eqn:E.
  - rewrite andb_true_r; now apply _render_frame_effect.
  - rewrite andb_false_r.
    destruct (window_after_frame_not_human self E) as (-> & -> & ->).
    exists self; repeat split; easy.
Qed.

(** Everything [reset] does to the object. *)
Lemma reset_effect (self : World) (seed : option N)
    (options : option (gmap string vec2)) :
  let b := initial_bodies self seed options in
  exists self',
    reset self seed options = Ok (self', (obs_of b, info_of b)) /\
    bodies self' = Some b /\
    np_random self' = snd (draw3 self seed) /\
    config self' = config self /\ traces_ok self' /\
    window self' = window_after_frame self /\
    clock self' = clock_after_frame self /\
    pygame self' = pygame_after_frame self /\
    observations self'
    = if show_observation_traces self
      then Some (if is_human self then [obs_of b] else [])
      else observations self.
Proof.
  unfold reset, initial_bodies, draw3, draw2, draw1, draw, seeded.
  destruct (uniform _ _ (match seed with Some s => _ | None => _ end))
    as [d1 g1].
  cbn [fst snd].
  destruct (uniform _ _ g1) as [d2 g2]; cbn [fst snd].
  destruct (uniform _ _ g2) as [d3 g3]; cbn [fst snd].
  match goal with
  | |- context [if is_human ?w then _ else _] =>
      match goal with
      | |- context [Ok (_, (obs_of ?b, _))] =>
          destruct (render_if_human_effect w b)
            as (self' & Hr & Hb & Hg & Hc & Hw & Hk & Hp & Ho)
      end
  end.
  - now destruct (show_observation_traces _).
  - unfold traces_ok; destruct (show_observation_traces (set_bodies _ _)) eqn:E;
      cbn; [eauto | cbn in E; now rewrite E].
  - rewrite Hr; cbn [mbind result_bind].
    rewrite (_get_obs_bodies _ _ Hb); cbn [mbind result_bind].
    rewrite (_get_info_bodies _ _ Hb); cbn [mbind result_bind].
    exists self'; split; [reflexivity |]; split; [exact Hb |].
    assert (Hcfg : config self' = config self)
      by (rewrite Hc; now destruct (show_observation_traces _)).
    assert (Hobs :
      observations self'
      = if show_observation_traces self
        then Some (if is_human self
                   then [obs_of
                           {| _agent_location :=
                                options_get options "agent_location" d1;
                              _agent_velocity := zeros;
                              _target_location :=
                                options_get options "target_location" d2;
                              _target_velocity := zeros;
                              _hazard_location :=
                                options_get options "hazard_location" d3;
                              _hazard_velocity := zeros |}]
                   else [])
        else observations self).
    { rewrite Ho; clear.
      destruct self as [ws lp ml mv ma os as_ rm w c tr bd ob g pg].
      destruct tr; cbn; unfold is_human; cbn;
        destruct (bool_decide (rm = Some "human"%string)); reflexivity. }
    split; [rewrite Hg; now destruct (show_observation_traces _) |].
    split; [exact Hcfg |].
    split.
    { unfold traces_ok; rewrite (config_traces _ _ Hcfg), Hobs.
      intros ->; eauto. }
    split; [rewrite Hw; now destruct (show_observation_traces _) |].
    split; [rewrite Hk; now destruct (show_observation_traces _) |].
    split; [rewrite Hp; now destruct (show_observation_traces _) |].
    exact Hobs.
Qed.

(** Everything [step] does to the object. *)
Lemma step_effect (self : World) (b : Bodies) (action : Action) :
  bodies self = Some b -> traces_ok self ->
  let b' := advance self b action in
  exists self',
    step self action = Ok (self', outcome self b') /\
    bodies self' = Some b' /\
    np_random self' = np_random self /\
    config self' = config self /\ traces_ok self' /\
    window self' = window_after_frame self /\
    clock self' = clock_after_frame self /\
    pygame self' = pygame_after_frame self /\
    observations self'
    = if show_observation_traces self && is_human self
      then option_map (fun l => l ++ [obs_of b']) (observations self)
      else observations self.
Proof.
  intros Hb Ht; unfold step, advance, outcome.
  destruct action as [[action0 action1] action2]; cbn [fst snd].
  rewrite Hb; cbn [getattr mbind result_bind].
  destruct (_step self (_agent_location b) _ action0 _) as [al av].
  destruct (_step self (_target_location b) _ action1 _) as [tl tv].
  destruct (_step self (_hazard_location b) _ action2 _) as [hl hv].
  cbn [fst snd].
  match goal with
  | |- context [if is_human ?w then _ else _] =>
      match goal with
      | |- context [Ok (_, (obs_of ?b, _, _, _, _))] =>
          destruct (render_if_human_effect w b)
            as (self' & Hr & Hb' & Hg & Hc & Hw & Hk & Hp & Ho)
      end
  end; [easy | exact Ht |].
  rewrite Hr; cbn [mbind result_bind].
  rewrite (_get_obs_bodies _ _ Hb'); cbn [mbind result_bind].
  rewrite (_get_info_bodies _ _ Hb'); cbn [mbind result_bind].
  exists self'; split; [reflexivity |]; split; [exact Hb' |].
  split; [exact Hg |]; split; [exact Hc |].
  split.
  { unfold traces_ok in *; rewrite (config_traces _ _ Hc), Ho.
    cbn [show_observation_traces set_bodies observations].
    intros E; destruct (Ht E) as [l ->].
    destruct (_ && _); cbn; eauto. }
  split; [exact Hw |]; split; [exact Hk |]; split; [exact Hp |].
  exact Ho.
Qed.

Lemma after_frame_settled (self self' : World) :
  config self' = config self ->
  window self' = window_after_frame self ->
  clock self' = clock_after_frame self ->
  pygame self' = pygame_after_frame self ->
  settled self'.
Proof.
  intros Hc Hw Hk Hp.
  unfold settled, window_after_frame, clock_after_frame, pygame_after_frame in *.
  rewrite (config_is_human _ _ Hc), (config_window_size _ _ Hc), Hw, Hk.
  destruct (window self), (clock self), (is_human self); repeat split; easy.
Qed.

Lemma final_bodies_physics (self self' : World) (actions : list Action) :
  physics self' = physics self ->
  forall b, final_bodies self' b actions = final_bodies self b actions.
Proof.
  intros E; induction actions as [| a rest IH]; intros b; cbn; [easy |].
  now rewrite (advance_physics self self') by easy.
Qed.

(** Everything a sequence of steps does to an object whose window, clock
    and pygame state are settled. *)
Lemma steps_effect (actions : list Action) :
  forall (self : World) (b : Bodies),
    bodies self = Some b -> traces_ok self -> settled self ->
    exists self',
      steps self actions = Ok (self', trajectory self b actions) /\
      bodies self' = Some (final_bodies self b actions) /\
      np_random self' = np_random self /\
      config self' = config self /\ traces_ok self' /\
      window self' = window self /\
      clock self' = clock self /\
      pygame self' = pygame self /\
      observations self'
      = if show_observation_traces self && is_human self
        then option_map
               (fun l => l ++ map obs_out (trajectory self b actions))
               (observations self)
        else observations self.
Proof.
  induction actions as [| a rest IH]; intros self b Hb Ht Hs;
    cbn [steps trajectory final_bodies map].
  - exists self; repeat split; try easy.
    destruct (_ && _); [| easy].
    destruct (observations self); cbn; [now rewrite app_nil_r | easy].
  - destruct (step_effect self b a Hb Ht)
      as (self1 & Hs1 & Hb1 & Hg1 & Hc1 & Ht1 & Hw1 & Hk1 & Hp1 & Ho1).
    rewrite Hs1; cbn [mbind result_bind].
    pose proof (after_frame_settled self self1 Hc1 Hw1 Hk1 Hp1) as Hs'.
    destruct (IH self1 _ Hb1 Ht1 Hs')
      as (self2 & Hs2 & Hb2 & Hg2 & Hc2 & Ht2 & Hw2 & Hk2 & Hp2 & Ho2).
    rewrite Hs2; cbn [mbind result_bind].
    pose proof (config_physics _ _ Hc1) as Hph.
    destruct Hs as (Ew & Ek & Ep).
    exists self2.
    rewrite (trajectory_physics self self1) in * by easy.
    rewrite (final_bodies_physics self self1) in * by easy.
    split; [reflexivity |]; split; [exact Hb2 |].
    split; [congruence |]; split; [congruence |]; split; [exact Ht2 |].
    split; [congruence |]; split; [congruence |]; split; [congruence |].
    rewrite Ho2, (config_traces _ _ Hc1), (config_is_human _ _ Hc1), Ho1.
    destruct (_ && _); [| reflexivity].
    destruct (observations self) as [l |]; cbn; [| reflexivity].
    now rewrite <- app_assoc.
Qed.

(** Everything an episode does to the object. *)
Lemma episode_effect (self : World) (seed : option N)
    (options : option (gmap string vec2)) (actions : list Action) :
  let b := initial_bodies self seed options in
  exists self',
    episode self seed options actions
    = Ok (self', (obs_of b, info_of b), trajectory self b actions) /\
    bodies self' = Some (final_bodies self b actions) /\
    np_random self' = snd (draw3 self seed) /\
    config self' = config self /\ traces_ok self' /\
    window self' = window_after_frame self /\
    clock self' = clock_after_frame self /\
    pygame self' = pygame_after_frame self /\
    observations self'
    = if show_observation_traces self
      then Some (if is_human self
                 then obs_of b :: map obs_out (trajectory self b actions)
                 else [])
      else observations self.
Proof.
  intros b; unfold episode.
  destruct (reset_effect self seed options)
    as (self1 & Hr & Hb1 & Hg1 & Hc1 & Ht1 & Hw1 & Hk1 & Hp1 & Ho1).
  fold b in Hr, Hb1, Ho1; rewrite Hr; cbn [mbind result_bind].
  pose proof (after_frame_settled self self1 Hc1 Hw1 Hk1 Hp1) as Hs1.
  destruct (steps_effect actions self1 b Hb1 Ht1 Hs1)
    as (self2 & Hs2 & Hb2 & Hg2 & Hc2 & Ht2 & Hw2 & Hk2 & Hp2 & Ho2).
  rewrite Hs2; cbn [mbind result_bind].
  pose proof (config_physics _ _ Hc1) as Hph.
  rewrite (trajectory_physics self self1) in * by easy.
  rewrite (final_bodies_physics self self1) in * by easy.
  exists self2.
  split; [reflexivity |]; split; [exact Hb2 |].
  split; [congruence |]; split; [congruence |]; split; [exact Ht2 |].
  split; [congruence |]; split; [congruence |]; split; [congruence |].
  rewrite Ho2, (config_traces _ _ Hc1), (config_is_human _ _ Hc1), Ho1.
  destruct (show_observation_traces self), (is_human self); reflexivity.
Qed.

End FrameFacts.

(** ** More on clipping *)

Lemma clip_idempotent (a lo hi : Q) :
  lo <= hi -> clip (clip a lo hi) lo hi = clip a lo hi.
Proof.
  intros Hlh; rewrite !clip_clamp by easy; unfold clamp.
  destruct (Qlt_le_dec a lo) as [Ha | Ha].
  - destruct (Qlt_le_dec lo lo); [reflexivity |].
    destruct (Qlt_le_dec hi lo); [exfalso; lra | reflexivity].
  - destruct (Qlt_le_dec hi a) as [Hb | Hb].
    + destruct (Qlt_le_dec hi lo); [exfalso; lra |].
      destruct (Qlt_le_dec hi hi); reflexivity.
    + destruct (Qlt_le_dec a lo); [exfalso; lra |].
      destruct (Qlt_le_dec hi a); [exfalso; lra | reflexivity].
Qed.

Lemma clip_monotone (a b lo hi : Q) : a <= b -> clip a lo hi <= clip b lo hi.
Proof.
  intros Hab; unfold clip.
  apply Q.min_le_compat_r, Q.max_le_compat_r, Hab.
Qed.

Lemma clip_odd (a m : Q) :
  0 <= m -> clip (- a) (- m) m == - clip a (- m) m.
Proof.
  intros Hm; rewrite !clip_clamp by lra; unfold clamp.
  destruct (Qlt_le_dec (- a) (- m)), (Qlt_le_dec m (- a)),
           (Qlt_le_dec a (- m)), (Qlt_le_dec m a); lra.
Qed.

(** ** The integrator, beyond its formula *)

Lemma _step_clipped_action {G : Type} `{RandomSource G}
    (self : TargetHazardWorld G) (l v a : vec2) (dt : Q) :
  0 <= max_absolute_acceleration self ->
  _step self l v
    (vclip a (- max_absolute_acceleration self) (max_absolute_acceleration self))
    dt
  = _step self l v a dt.
Proof.
  intros Ha; unfold _step, vclip; cbn [fst snd].
  rewrite !clip_idempotent by lra; reflexivity.
Qed.

(** X1.  An acceleration outside the acceleration box acts exactly like the
    nearest acceleration inside it: [step] on an action and [step] on that
    action clipped to the box return the same result and leave the same
    object (or raise the same exception). *)
Theorem step_clamps_actions {G : Type} `{RandomSource G}
    (self : TargetHazardWorld G) (a0 a1 a2 : vec2) :
  0 <= max_absolute_acceleration self ->
  let box a :=
    vclip a (- max_absolute_acceleration self)
      (max_absolute_acceleration self) in
  step self (box a0, box a1, box a2) = step self (a0, a1, a2).
Proof.
  intros Ha box; subst box; unfold step.
  destruct (getattr (bodies self)) as [b |]; cbn [mbind result_bind]; [| easy].
  now rewrite !_step_clipped_action by easy.
Qed.

Lemma step_clamps_actions_witness :
  let self := started None false (Some 7%N) None in
  step self ((1, 1), (0 # 1, 1 # 2), (- (1), 1))
  = step self ((7, 1), (0 # 1, 1 # 2), (- (5), 3)).
Proof.
  apply (step_clamps_actions (started None false (Some 7%N) None)
           (7, 1) (0 # 1, 1 # 2) (- (5), 3)).
  vm_compute; discriminate.
Defined.

(** X2.  A body never moves against its new velocity: for a time step
    that is not negative and a position inside the location box, on each
    axis the position that [_step] returns is not smaller than the old one
    when the returned velocity is not negative, and not larger when the
    returned velocity is not positive; with a zero velocity component the
    coordinate stays. *)
Theorem _step_moves_along_velocity {G : Type} `{RandomSource G}
    (self : TargetHazardWorld G) (l v a : vec2) (dt : Q) :
  0 <= dt ->
  within (max_absolute_location self) l ->
  let next := _step self l v a dt in
  (0 <= fst (snd next) -> fst l <= fst (fst next)) /\
  (fst (snd next) <= 0 -> fst (fst next) <= fst l) /\
  (0 <= snd (snd next) -> snd l <= snd (fst next)) /\
  (snd (snd next) <= 0 -> snd (fst next) <= snd l).
Proof.
  intros Hdt Hl next; subst next.
  apply within_range in Hl; destruct Hl as [Hx Hy].
  assert (up : forall x w lo hi,
             lo <= x <= hi -> 0 <= w -> x <= clip (x + w * dt) lo hi).
  { intros x w lo hi Hin Hw.
    rewrite <- (clip_inside x lo hi Hin) at 1.
    apply clip_monotone; nra. }
  assert (down : forall x w lo hi,
             lo <= x <= hi -> w <= 0 -> clip (x + w * dt) lo hi <= x).
  { intros x w lo hi Hin Hw.
    rewrite <- (clip_inside x lo hi Hin) at 2.
    apply clip_monotone; nra. }
  unfold _step, vclip, vadd, vscale; cbn [fst snd].
  split; [now apply up |]; split; [now apply down |].
  split; [now apply up | now apply down].
Qed.

Lemma _step_moves_along_velocity_witness :
  let next := _step (fresh None false) (1 # 2, - (1)) (1, 0) (3, - (1 # 2))
                (1 # 24) in
  (0 <= fst (snd next) -> 1 # 2 <= fst (fst next)) /\
  (fst (snd next) <= 0 -> fst (fst next) <= 1 # 2) /\
  (0 <= snd (snd next) -> - (1) <= snd (fst next)) /\
  (snd (snd next) <= 0 -> snd (fst next) <= - (1)).
Proof.
  apply (_step_moves_along_velocity (fresh None false) (1 # 2, - (1)) (1, 0)
           (3, - (1 # 2)) (1 # 24)).
  - vm_compute; discriminate.
  - split; vm_compute; discriminate.
Defined.

(** X3.  The integrator is monotone: for a time step that is not negative,
    a body that starts at least as far along both axes, at least as fast,
    with at least as much acceleration, ends at least as far and at least
    as fast.  No assumption on the bounds is needed. *)
Theorem _step_monotone {G : Type} `{RandomSource G}
    (self : TargetHazardWorld G) (l1 l2 v1 v2 a1 a2 : vec2) (dt : Q) :
  0 <= dt -> vle l1 l2 -> vle v1 v2 -> vle a1 a2 ->
  vle (fst (_step self l1 v1 a1 dt)) (fst (_step self l2 v2 a2 dt)) /\
  vle (snd (_step self l1 v1 a1 dt)) (snd (_step self l2 v2 a2 dt)).
Proof.
  intros Hdt [Hlx Hly] [Hvx Hvy] [Hax Hay].
  unfold vle, _step, vclip, vadd, vscale; cbn [fst snd].
  pose proof (clip_monotone _ _ (- max_absolute_acceleration self)
                (max_absolute_acceleration self) Hax) as Hcx.
  pose proof (clip_monotone _ _ (- max_absolute_acceleration self)
                (max_absolute_acceleration self) Hay) as Hcy.
  assert (Hwx : clip (fst v1 + clip (fst a1) (- max_absolute_acceleration self)
                                (max_absolute_acceleration self) * dt)
                  (- max_absolute_velocity self) (max_absolute_velocity self)
                <= clip (fst v2 + clip (fst a2) (- max_absolute_acceleration self)
                                   (max_absolute_acceleration self) * dt)
                     (- max_absolute_velocity self) (max_absolute_velocity self))
    by (apply clip_monotone; nra).
  assert (Hwy : clip (snd v1 + clip (snd a1) (- max_absolute_acceleration self)
                                (max_absolute_acceleration self) * dt)
                  (- max_absolute_velocity self) (max_absolute_velocity self)
                <= clip (snd v2 + clip (snd a2) (- max_absolute_acceleration self)
                                   (max_absolute_acceleration self) * dt)
                     (- max_absolute_velocity self) (max_absolute_velocity self))
    by (apply clip_monotone; nra).
  repeat split; try assumption; apply clip_monotone; nra.
Qed.

Lemma _step_monotone_witness :
  let self := fresh None false in
  vle (fst (_step self (0, 0) (0, 0) (- (2), 0) (1 # 24)))
      (fst (_step self (1 # 10, 0) (1 # 2, 0) (1 # 2, 1) (1 # 24))) /\
  vle (snd (_step self (0, 0) (0, 0) (- (2), 0) (1 # 24)))
      (snd (_step self (1 # 10, 0) (1 # 2, 0) (1 # 2, 1) (1 # 24))).
Proof.
  apply (_step_monotone (fresh None false) (0, 0) (1 # 10, 0) (0, 0)
           (1 # 2, 0) (- (2), 0) (1 # 2, 1) (1 # 24));
    try (vm_compute; discriminate);
    split; vm_compute; discriminate.
Defined.

(** X4.  The dynamics are symmetric about the origin when the bounds are
    not negative: negating position, velocity and acceleration negates the
    position and the velocity that [_step] returns. *)
Theorem _step_point_symmetric {G : Type} `{RandomSource G}
    (self : TargetHazardWorld G) (l v a : vec2) (dt : Q) :
  0 <= max_absolute_location self ->
  0 <= max_absolute_velocity self ->
  0 <= max_absolute_acceleration self ->
  veq (fst (_step self (vopp l) (vopp v) (vopp a) dt))
      (vopp (fst (_step self l v a dt))) /\
  veq (snd (_step self (vopp l) (vopp v) (vopp a) dt))
      (vopp (snd (_step self l v a dt))).
Proof.
  intros Hl Hv Ha.
  assert (Hvel : forall x y,
             clip (- x + clip (- y) (- max_absolute_acceleration self)
                           (max_absolute_acceleration self) * dt)
               (- max_absolute_velocity self) (max_absolute_velocity self)
             == - clip (x + clip y (- max_absolute_acceleration self)
                             (max_absolute_acceleration self) * dt)
                    (- max_absolute_velocity self) (max_absolute_velocity self)).
  { intros x y; rewrite <- clip_odd by easy.
    apply clip_proper; try reflexivity.
    rewrite clip_odd by easy; ring. }
  assert (Hloc : forall z x y,
             clip (- z
                   + clip (- x + clip (- y) (- max_absolute_acceleration self)
                                   (max_absolute_acceleration self) * dt)
                       (- max_absolute_velocity self)
                       (max_absolute_velocity self) * dt)
               (- max_absolute_location self) (max_absolute_location self)
             == - clip (z
                        + clip (x + clip y (- max_absolute_acceleration self)
                                      (max_absolute_acceleration self) * dt)
                            (- max_absolute_velocity self)
                            (max_absolute_velocity self) * dt)
                    (- max_absolute_location self) (max_absolute_location self)).
  { intros z x y; rewrite <- clip_odd by easy.
    apply clip_proper; try reflexivity.
    rewrite Hvel; ring. }
  unfold veq, vopp, _step, vclip, vadd, vscale; cbn [fst snd].
  repeat split; auto.
Qed.

Lemma _step_point_symmetric_witness :
  let self := fresh None false in
  veq (fst (_step self (vopp (1 # 2, - (1))) (vopp (1, 0)) (vopp (3, - (1 # 2)))
              (1 # 24)))
      (vopp (fst (_step self (1 # 2, - (1)) (1, 0) (3, - (1 # 2)) (1 # 24)))) /\
  veq (snd (_step self (vopp (1 # 2, - (1))) (vopp (1, 0)) (vopp (3, - (1 # 2)))
              (1 # 24)))
      (vopp (snd (_step self (1 # 2, - (1)) (1, 0) (3, - (1 # 2)) (1 # 24)))).
Proof.
  apply (_step_point_symmetric (fresh None false) (1 # 2, - (1)) (1, 0)
           (3, - (1 # 2)) (1 # 24));
    vm_compute; discriminate.
Defined.

Lemma _step_at_rest_velocity {G : Type} `{RandomSource G}
    (self : TargetHazardWorld G) (l : vec2) (dt : Q) :
  0 <= max_absolute_velocity self ->
  0 <= max_absolute_acceleration self ->
  veq (snd (_step self l zeros zeros dt)) zeros /\
  veq (fst (_step self l zeros zeros dt))
      (vclip l (- max_absolute_location self) (max_absolute_location self)).
Proof.
  intros Hv Ha; unfold veq, _step, vclip, vadd, vscale, zeros; cbn [fst snd].
  assert (Ea : clip 0 (- max_absolute_acceleration self)
                 (max_absolute_acceleration self) == 0)
    by (apply clip_inside; lra).
  assert (Ev : clip 0 (- max_absolute_velocity self)
                 (max_absolute_velocity self) == 0)
    by (apply clip_inside; lra).
  assert (E0 : forall d, 0 + 0 * d == 0) by (intros; ring).
  assert (E1 : forall x d, x + 0 * d == x) by (intros; ring).
  rewrite Ea, E0, Ev, !E1; repeat split; reflexivity.
Qed.

(** X5.  A world at rest stays as it is: when the velocity and acceleration
    bounds are not negative, the three bodies have zero velocity and lie in
    the location box, the zero action returns an observation equal,
    component by component, to the state before the step. *)
Theorem rest_is_a_fixed_point {G : Type} `{RandomSource G}
    (self : TargetHazardWorld G) (b : Bodies) :
  bodies self = Some b -> traces_ok self ->
  0 <= max_absolute_velocity self ->
  0 <= max_absolute_acceleration self ->
  within (max_absolute_location self) (_agent_location b) ->
  within (max_absolute_location self) (_target_location b) ->
  within (max_absolute_location self) (_hazard_location b) ->
  _agent_velocity b = zeros -> _target_velocity b = zeros ->
  _hazard_velocity b = zeros ->
  exists self' obs reward terminated truncated info,
    step self (zeros, zeros, zeros)
    = Ok (self', (obs, reward, terminated, truncated, info)) /\
    Forall2 veq (obs_list obs) (obs_list (obs_of b)).
Proof.
  intros Hb Ht Hv Ha Hal Htl Hhl Eav Etv Ehv.
  destruct (step_ok self b (zeros, zeros, zeros) Hb Ht) as (self' & Hs & _).
  eexists self', _, _, _, _, _; split; [exact Hs |].
  unfold obs_list, obs_of, advance; cbn [fst snd _agent_location
    _agent_velocity _target_location _target_velocity _hazard_location
    _hazard_velocity].
  rewrite Eav, Etv, Ehv.
  assert (Hloc : forall l,
             within (max_absolute_location self) l ->
             veq (fst (_step self l zeros zeros (1 / render_fps))) l).
  { intros l Hl.
    destruct (_step_at_rest_velocity self l (1 / render_fps) Hv Ha)
      as [_ [Ex Ey]].
    destruct (vclip_inside _ l Hl) as [Ex' Ey'].
    split; [now rewrite Ex | now rewrite Ey]. }
  assert (Hvel : forall l,
             veq (snd (_step self l zeros zeros (1 / render_fps))) zeros)
    by (intros l; exact (proj1 (_step_at_rest_velocity self l _ Hv Ha))).
  constructor; [apply Hloc, Hal |].
  constructor; [apply Hvel |].
  constructor; [apply Hloc, Htl |].
  constructor; [apply Hvel |].
  constructor; [apply Hloc, Hhl |].
  constructor; [apply Hvel |].
  constructor.
Qed.

Lemma rest_is_a_fixed_point_witness :
  let options :=
    Some {[ "agent_location"%string := (0, 0);
            "target_location"%string := (1 # 2, 1 # 2);
            "hazard_location"%string := (1, - (1)) ]} in
  let b := initial_bodies (fresh None false) None options in
  exists self' obs reward terminated truncated info,
    step (started None false None options) (zeros, zeros, zeros)
    = Ok (self', (obs, reward, terminated, truncated, info)) /\
    Forall2 veq (obs_list obs) (obs_list (obs_of b)).
Proof.
  apply (rest_is_a_fixed_point
           (started None false None
              (Some {[ "agent_location"%string := (0, 0);
                       "target_location"%string := (1 # 2, 1 # 2);
                       "hazard_location"%string := (1, - (1)) ]}))
           (initial_bodies (fresh None false) None
              (Some {[ "agent_location"%string := (0, 0);
                       "target_location"%string := (1 # 2, 1 # 2);
                       "hazard_location"%string := (1, - (1)) ]}))).
  - vm_compute; reflexivity.
  - intros Htr; vm_compute in Htr; discriminate.
  - vm_compute; discriminate.
  - vm_compute; discriminate.
  - split; vm_compute; discriminate.
  - split; vm_compute; discriminate.
  - split; vm_compute; discriminate.
  - reflexivity.
  - reflexivity.
  - reflexivity.
Defined.

(** ** Observation and info *)

(** X6.  What [step] returns is what the object holds afterwards: the
    distances of the info are the Euclidean distances agent-target and
    agent-hazard of the returned observation, [terminated] is the
    comparison of the info's target distance with [location_precision], and
    [_get_obs] and [_get_info] on the object left return the same
    observation and info. *)
Theorem step_info_matches_observation {G : Type} `{RandomSource G}
    (self : TargetHazardWorld G) (b : Bodies) (action : Action) :
  bodies self = Some b -> traces_ok self ->
  exists self' al av tl tv hl hv reward terminated truncated info,
    step self action
    = Ok (self', (al, av, tl, tv, hl, hv, reward, terminated, truncated, info)) /\
    surd_R (target_distance info) = euclid al tl /\
    surd_R (hazard_distance info) = euclid al hl /\
    terminated = surd_ltb (target_distance info) (location_precision self) /\
    _get_obs self' = Ok (al, av, tl, tv, hl, hv) /\
    _get_info self' = Ok info.
Proof.
  intros Hb Ht.
  destruct (step_ok self b action Hb Ht) as (self' & Hs & Hb' & _).
  unfold obs_of in Hs.
  eexists self', _, _, _, _, _, _, _, _, _, _; split; [exact Hs |].
  cbn [info_of target_distance hazard_distance].
  split; [apply norm_euclid |]; split; [apply norm_euclid |].
  split; [reflexivity |].
  split; [now rewrite (_get_obs_bodies _ _ Hb')
         | now rewrite (_get_info_bodies _ _ Hb')].
Qed.

Lemma step_info_matches_observation_witness :
  exists self' al av tl tv hl hv reward terminated truncated info,
    step (started None false (Some 7%N) None) ((1, 1), (0, 0), (- (5), 3))
    = Ok (self', (al, av, tl, tv, hl, hv, reward, terminated, truncated, info)) /\
    surd_R (target_distance info) = euclid al tl /\
    surd_R (hazard_distance info) = euclid al hl /\
    terminated = surd_ltb (target_distance info) (1 # 100) /\
    _get_obs self' = Ok (al, av, tl, tv, hl, hv) /\
    _get_info self' = Ok info.
Proof.
  apply (step_info_matches_observation (started None false (Some 7%N) None)
           (initial_bodies (fresh None false) (Some 7%N) None)
           ((1, 1), (0, 0), (- (5), 3))).
  - vm_compute; reflexivity.
  - intros Htr; vm_compute in Htr; discriminate.
Defined.

(** X7.  The same for [reset], from any state and for any seed and options:
    the info it returns holds the Euclidean distances of the observation it
    returns, and the getters on the object left return both again. *)
Theorem reset_info_matches_observation {G : Type} `{RandomSource G}
    (self : TargetHazardWorld G) (seed : option N)
    (options : option (gmap string vec2)) :
  exists self' al av tl tv hl hv info,
    reset self seed options = Ok (self', (al, av, tl, tv, hl, hv, info)) /\
    surd_R (target_distance info) = euclid al tl /\
    surd_R (hazard_distance info) = euclid al hl /\
    _get_obs self' = Ok (al, av, tl, tv, hl, hv) /\
    _get_info self' = Ok info.
Proof.
  destruct (reset_ok self seed options) as (self' & Hr & Hb' & _).
  unfold obs_of in Hr.
  eexists self', _, _, _, _, _, _, _; split; [exact Hr |].
  cbn [info_of target_distance hazard_distance].
  split; [apply norm_euclid |]; split; [apply norm_euclid |].
  split; [now rewrite (_get_obs_bodies _ _ Hb')
         | now rewrite (_get_info_bodies _ _ Hb')].
Qed.

(** X8.  The hazard plays no part in the outcome: two objects with the same
    bounds and precision whose agent and target have the same state, given
    the same accelerations for agent and target, return the same agent and
    target observation, the same reward, the same [terminated] and the same
    target distance, whatever their hazards and the hazard accelerations. *)
Theorem hazard_never_matters {G : Type} `{RandomSource G}
    (self1 self2 : TargetHazardWorld G) (b1 b2 : Bodies)
    (action1 action2 : Action) :
  bodies self1 = Some b1 -> traces_ok self1 ->
  bodies self2 = Some b2 -> traces_ok self2 ->
  physics self1 = physics self2 ->
  _agent_location b1 = _agent_location b2 ->
  _agent_velocity b1 = _agent_velocity b2 ->
  _target_location b1 = _target_location b2 ->
  _target_velocity b1 = _target_velocity b2 ->
  fst action1 = fst action2 ->
  exists end1 end2 al av tl tv hl1 hv1 hl2 hv2 reward terminated truncated
         info1 info2,
    step self1 action1
    = Ok (end1,
          (al, av, tl, tv, hl1, hv1, reward, terminated, truncated, info1)) /\
    step self2 action2
    = Ok (end2,
          (al, av, tl, tv, hl2, hv2, reward, terminated, truncated, info2)) /\
    target_distance info1 = target_distance info2.
Proof.
  intros Hb1 Ht1 Hb2 Ht2 Hph Eal Eav Etl Etv Eact.
  destruct (step_ok self1 b1 action1 Hb1 Ht1) as (end1 & Hs1 & _).
  destruct (step_ok self2 b2 action2 Hb2 Ht2) as (end2 & Hs2 & _).
  unfold obs_of, info_of, advance in Hs1, Hs2;
    cbn [fst snd _agent_location _agent_velocity _target_location
         _target_velocity _hazard_location _hazard_velocity] in Hs1, Hs2.
  rewrite <- Eal, <- Eav, <- Etl, <- Etv, <- Eact in Hs2.
  rewrite !(_step_physics self1 self2) in Hs2 by easy.
  assert (Elp : location_precision self2 = location_precision self1)
    by (unfold physics in Hph; now injection Hph).
  rewrite Elp in Hs2.
  eexists end1, end2, _, _, _, _, _, _, _, _, _, _, _, _, _.
  split; [exact Hs1 |]; split; [exact Hs2 | reflexivity].
Qed.

Lemma hazard_never_matters_witness :
  let options1 :=
    Some {[ "agent_location"%string := (0, 0);
            "target_location"%string := (1 # 2, 1 # 2);
            "hazard_location"%string := (1, - (1)) ]} in
  let options2 :=
    Some {[ "agent_location"%string := (0, 0);
            "target_location"%string := (1 # 2, 1 # 2);
            "hazard_location"%string := (0, 0) ]} in
  exists end1 end2 al av tl tv hl1 hv1 hl2 hv2 reward terminated truncated
         info1 info2,
    step (started None false None options1) ((1, 0), (0, 1), (1, 1))
    = Ok (end1,
          (al, av, tl, tv, hl1, hv1, reward, terminated, truncated, info1)) /\
    step (started (Some "human"%string) true None options2)
      ((1, 0), (0, 1), (- (1), 0))
    = Ok (end2,
          (al, av, tl, tv, hl2, hv2, reward, terminated, truncated, info2)) /\
    target_distance info1 = target_distance info2.
Proof.
  apply (hazard_never_matters
           (started None false None
              (Some {[ "agent_location"%string := (0, 0);
                       "target_location"%string := (1 # 2, 1 # 2);
                       "hazard_location"%string := (1, - (1)) ]}))
           (started (Some "human"%string) true None
              (Some {[ "agent_location"%string := (0, 0);
                       "target_location"%string := (1 # 2, 1 # 2);
                       "hazard_location"%string := (0, 0) ]}))
           (initial_bodies (fresh None false) None
              (Some {[ "agent_location"%string := (0, 0);
                       "target_location"%string := (1 # 2, 1 # 2);
                       "hazard_location"%string := (1, - (1)) ]}))
           (initial_bodies (fresh (Some "human"%string) true) None
              (Some {[ "agent_location"%string := (0, 0);
                       "target_location"%string := (1 # 2, 1 # 2);
                       "hazard_location"%string := (0, 0) ]}))
           ((1, 0), (0, 1), (1, 1)) ((1, 0), (0, 1), (- (1), 0))).
  - vm_compute; reflexivity.
  - intros Htr; vm_compute in Htr; discriminate.
  - vm_compute; reflexivity.
  - intros _; vm_compute; eexists; reflexivity.
  - reflexivity.
  - reflexivity.
  - reflexivity.
  - reflexivity.
  - reflexivity.
  - reflexivity.
Defined.

(** ** The trace, the window and [render] *)

(** X9.  With traces switched on, the trace an episode leaves is the
    history of its frames: in human mode the observation that [reset]
    returned followed by the observation of every step, in order; in the
    other modes, where no frame is drawn, the empty list that [reset]
    installed. *)
Theorem trace_is_the_episode_history {G : Type} `{RandomSource G}
    (self : TargetHazardWorld G) (seed : option N)
    (options : option (gmap string vec2)) (actions : list Action) :
  show_observation_traces self = true ->
  exists self' obs0 info0 outs,
    episode self seed options actions = Ok (self', (obs0, info0), outs) /\
    observations self'
    = Some (if is_human self then obs0 :: map obs_out outs else []).
Proof.
  intros Etr.
  destruct (episode_effect self seed options actions)
    as (self' & He & _ & _ & _ & _ & _ & _ & _ & Ho).
  rewrite Etr in Ho.
  eexists self', _, _, _; split; [exact He | exact Ho].
Qed.

Lemma trace_is_the_episode_history_witness :
  exists self' obs0 info0 outs,
    episode (fresh (Some "human"%string) true) (Some 7%N) None
      [((1, 1), (0, 0), (- (5), 3)); ((0, 0), (1, 0), (0, 0))]
    = Ok (self', (obs0, info0), outs) /\
    observations self' = Some (obs0 :: map obs_out outs).
Proof.
  apply (trace_is_the_episode_history (fresh (Some "human"%string) true)
           (Some 7%N) None
           [((1, 1), (0, 0), (- (5), 3)); ((0, 0), (1, 0), (0, 0))]).
  reflexivity.
Defined.

(** X10.  In human mode the window is opened by [reset]: with a positive
    [window_size], an episode that starts on an object without a window
    leaves a window of the size [(window_size, window_size)], a clock, and
    pygame with its display initialised. *)
Theorem human_episode_opens_the_window {G : Type} `{RandomSource G}
    (self : TargetHazardWorld G) (seed : option N)
    (options : option (gmap string vec2)) (actions : list Action) :
  is_human self = true -> window self = None ->
  (0 < window_size self)%Z ->
  exists self' first outs,
    episode self seed options actions = Ok (self', first, outs) /\
    window self'
    = Some {| surface_size := (window_size self, window_size self) |} /\
    is_Some (clock self') /\
    pygame self'
    = {| pygame_initialized := true; display_initialized := true |}.
Proof.
  intros Eh Ew _.
  destruct (episode_effect self seed options actions)
    as (self' & He & _ & _ & _ & _ & Hw & Hk & Hp & _).
  unfold window_after_frame, clock_after_frame, pygame_after_frame in *.
  rewrite Eh, Ew in *.
  eexists self', _, _; split; [exact He |].
  rewrite Hw, Hk, Hp.
  destruct (clock self); cbn; eauto.
Qed.

Lemma human_episode_opens_the_window_witness :
  exists self' first outs,
    episode (fresh (Some "human"%string) false) (Some 7%N) None
      [((1, 1), (0, 0), (- (5), 3))]
    = Ok (self', first, outs) /\
    window self' = Some {| surface_size := (500%Z, 500%Z) |} /\
    is_Some (clock self') /\
    pygame self'
    = {| pygame_initialized := true; display_initialized := true |}.
Proof.
  apply (human_episode_opens_the_window (fresh (Some "human"%string) false)
           (Some 7%N) None [((1, 1), (0, 0), (- (5), 3))]);
    reflexivity.
Defined.

(** X11.  Outside human mode an episode never touches the window, the
    clock or pygame. *)
Theorem no_window_outside_human_mode {G : Type} `{RandomSource G}
    (self : TargetHazardWorld G) (seed : option N)
    (options : option (gmap string vec2)) (actions : list Action) :
  is_human self = false ->
  exists self' first outs,
    episode self seed options actions = Ok (self', first, outs) /\
    window self' = window self /\ clock self' = clock self /\
    pygame self' = pygame self.
Proof.
  intros Eh.
  destruct (episode_effect self seed options actions)
    as (self' & He & _ & _ & _ & _ & Hw & Hk & Hp & _).
  destruct (window_after_frame_not_human self Eh) as (Ew & Ek & Ep).
  eexists self', _, _; split; [exact He |].
  repeat split; congruence.
Qed.

Lemma no_window_outside_human_mode_witness :
  exists self' first outs,
    episode (fresh (Some "rgb_array"%string) true) (Some 7%N) None
      [((1, 1), (0, 0), (- (5), 3))]
    = Ok (self', first, outs) /\
    window self' = None /\ clock self' = None /\ pygame self' = pygame_off.
Proof.
  apply (no_window_outside_human_mode (fresh (Some "rgb_array"%string) true)
           (Some 7%N) None [((1, 1), (0, 0), (- (5), 3))]).
  reflexivity.
Defined.

(** X12.  [render] in rgb_array mode, with a positive [window_size] and
    once a [reset] has run, draws a frame without creating a window or a clock and without touching pygame, the
    bodies, the configuration or the random source; with traces switched on
    it appends the current observation to the trace, and otherwise leaves
    the trace alone. *)
Theorem render_rgb_array_effect {G : Type} `{RandomSource G}
    (self : TargetHazardWorld G) (b : Bodies) :
  render_mode self = Some "rgb_array"%string ->
  (0 < window_size self)%Z ->
  bodies self = Some b -> traces_ok self ->
  exists self',
    render self = Ok self' /\
    window self' = window self /\ clock self' = clock self /\
    pygame self' = pygame self /\
    bodies self' = Some b /\ np_random self' = np_random self /\
    config self' = config self /\
    observations self'
    = if show_observation_traces self
      then option_map (fun l => l ++ [obs_of b]) (observations self)
      else observations self.
Proof.
  intros Em _ Hb Ht; unfold render; rewrite Em.
  rewrite bool_decide_eq_true_2 by reflexivity.
  destruct (_render_frame_effect self b Hb Ht)
    as (self' & Hr & Hb' & Hg & Hc & Hw & Hk & Hp & Ho).
  assert (Eh : is_human self = false)
    by (unfold is_human; rewrite Em; reflexivity).
  destruct (window_after_frame_not_human self Eh) as (Ew & Ek & Ep).
  exists self'; split; [exact Hr |].
  repeat split; congruence.
Qed.

Lemma render_rgb_array_effect_witness :
  let self := started (Some "rgb_array"%string) true (Some 7%N) None in
  let b := initial_bodies (fresh (Some "rgb_array"%string) true) (Some 7%N) None in
  exists self',
    render self = Ok self' /\
    window self' = window self /\ clock self' = clock self /\
    pygame self' = pygame self /\
    bodies self' = Some b /\ np_random self' = np_random self /\
    config self' = config self /\
    observations self'
    = if show_observation_traces self
      then option_map (fun l => l ++ [obs_of b]) (observations self)
      else observations self.
Proof.
  apply (render_rgb_array_effect
           (started (Some "rgb_array"%string) true (Some 7%N) None)
           (initial_bodies (fresh (Some "rgb_array"%string) true)
              (Some 7%N) None)).
  - reflexivity.
  - reflexivity.
  - vm_compute; reflexivity.
  - intros _; vm_compute; eexists; reflexivity.
Defined.

(** X13.  An object that [__init__] has just built has no bodies: [step]
    and [_get_obs] raise [AttributeError], [close] does nothing, [render]
    does nothing outside rgb_array mode, and in rgb_array mode, with a
    window size that is not negative (so that pygame accepts the canvas),
    [render] raises [AttributeError]. *)
Theorem nothing_works_before_reset {G : Type} `{RandomSource G}
    (entropy : G) (pg : Pygame) (mode : option string) (size : Z)
    (precision max_location max_velocity max_acceleration : Q)
    (traces : bool) (self : TargetHazardWorld G) (action : Action) :
  __init__ entropy pg mode size precision max_location max_velocity
    max_acceleration traces = Ok self ->
  step self action = Raise AttributeError /\
  _get_obs self = Raise AttributeError /\
  close self = self /\
  (mode <> Some "rgb_array"%string -> render self = Ok self) /\
  (mode = Some "rgb_array"%string -> (0 <= size)%Z ->
   render self = Raise AttributeError).
Proof.
  rewrite __init___cases.
  destruct (_ && _); [| discriminate].
  destruct (match mode with None => true | Some m => _ end); [| discriminate].
  intros [= <-]; unfold constructed.
  split; [now destruct action as [[a0 a1] a2] |].
  split; [reflexivity |].
  split; [reflexivity |].
  unfold render; cbn [render_mode].
  split.
  - intros Hm; now rewrite bool_decide_eq_false_2.
  - intros -> _; rewrite bool_decide_eq_true_2 by reflexivity.
    unfold _render_frame, is_human; cbn.
    now destruct traces.
Qed.

Lemma nothing_works_before_reset_witness :
  step (fresh (Some "rgb_array"%string) true) ((1, 1), (0, 0), (0, 0))
  = Raise AttributeError /\
  _get_obs (fresh (Some "rgb_array"%string) true) = Raise AttributeError /\
  close (fresh (Some "rgb_array"%string) true)
  = fresh (Some "rgb_array"%string) true /\
  render (fresh (Some "rgb_array"%string) true) = Raise AttributeError.
Proof.
  destruct (nothing_works_before_reset 2024%N pygame_off
              (Some "rgb_array"%string) 500 (1 # 100) 1 1 1 true
              (fresh (Some "rgb_array"%string) true) ((1, 1), (0, 0), (0, 0)))
    as (Hs & Ho & Hc & _ & Hr); [reflexivity |].
  split; [exact Hs |]; split; [exact Ho |]; split; [exact Hc |].
  apply Hr; [reflexivity | discriminate].
Defined.

(** ** World coordinates on the canvas *)

Lemma isometry_axis_range (x m w : Q) :
  0 < m -> 0 <= w -> - m <= x <= m -> 0 <= (1 + x / m) * w / 2 <= w.
Proof.
  intros Hm Hw [Hlo Hhi].
  assert (Ht : - (1) <= x / m <= 1).
  { split.
    - apply Qle_shift_div_l; [easy | lra].
    - apply Qle_shift_div_r; [easy | lra]. }
  revert Ht; generalize (x / m); intros t [Ht1 Ht2].
  change ((1 + t) * w / 2) with ((1 + t) * w * (1 # 2)).
  split; nra.
Qed.

(** X14.  With a positive location bound and a window size that is not
    negative, [window_isometry] sends every point of the location box into
    the window square [[0, window_size]] on both axes. *)
Theorem window_isometry_in_window {G : Type} `{RandomSource G}
    (self : TargetHazardWorld G) (v : vec2) :
  0 < max_absolute_location self ->
  (0 <= window_size self)%Z ->
  within (max_absolute_location self) v ->
  in_window self (window_isometry self v).
Proof.
  intros Hm Hw Hv; apply within_range in Hv; destruct Hv as [Hx Hy].
  assert (Hw' : 0 <= inject_Z (window_size self))
    by (unfold Qle; cbn; lia).
  unfold in_window, window_isometry; cbn [fst snd].
  split; now apply isometry_axis_range.
Qed.

Lemma window_isometry_in_window_witness :
  in_window (fresh None false) (window_isometry (fresh None false) (1 # 2, - (1))).
Proof.
  apply (window_isometry_in_window (fresh None false) (1 # 2, - (1))).
  - reflexivity.
  - discriminate.
  - split; vm_compute; discriminate.
Defined.

(** X15.  With a positive location bound and a window size that is not
    negative, [window_isometry] keeps the order on each axis: a point that
    does not lie further along an axis than another is not drawn further
    along it. *)
Theorem window_isometry_keeps_order {G : Type} `{RandomSource G}
    (self : TargetHazardWorld G) (u v : vec2) :
  0 < max_absolute_location self ->
  (0 <= window_size self)%Z ->
  vle u v ->
  vle (window_isometry self u) (window_isometry self v).
Proof.
  intros Hm Hw [Hx Hy].
  assert (Hw' : 0 <= inject_Z (window_size self))
    by (unfold Qle; cbn; lia).
  pose proof (Qinv_lt_0_compat _ Hm) as Hi.
  assert (Hax : forall x y,
             x <= y ->
             (1 + x / max_absolute_location self)
               * inject_Z (window_size self) / 2
             <= (1 + y / max_absolute_location self)
                  * inject_Z (window_size self) / 2).
  { intros x y Hxy; unfold Qdiv.
    assert (x * / max_absolute_location self
            <= y * / max_absolute_location self)
      by (apply Qmult_le_compat_r; lra).
    change (/ 2) with (1 # 2); nra. }
  unfold vle, window_isometry; cbn [fst snd].
  split; now apply Hax.
Qed.

Lemma window_isometry_keeps_order_witness :
  vle (window_isometry (fresh None false) (0, - (1)))
      (window_isometry (fresh None false) (1 # 2, - (1))).
Proof.
  apply (window_isometry_keeps_order (fresh None false) (0, - (1))
           (1 # 2, - (1))).
  - reflexivity.
  - discriminate.
  - split; vm_compute; discriminate.
Defined.

(** X16.  With a location bound other than zero, [window_isometry] sends
    the corner [(-max, -max)] of the location box to the pixel (0, 0), the
    corner [(max, max)] to [(window_size, window_size)] and the origin to
    the centre of the window. *)
Theorem window_isometry_corners {G : Type} `{RandomSource G}
    (self : TargetHazardWorld G) :
  ~ max_absolute_location self == 0 ->
  let m := max_absolute_location self in
  let w := inject_Z (window_size self) in
  veq (window_isometry self (- m, - m)) (0, 0) /\
  veq (window_isometry self (m, m)) (w, w) /\
  veq (window_isometry self zeros) (w / 2, w / 2).
Proof.
  intros Hm m w; unfold veq, window_isometry, zeros; cbn [fst snd].
  fold m w.
  repeat split; field; exact Hm.
Qed.

Lemma window_isometry_corners_witness :
  veq (window_isometry (fresh None false) (- (1), - (1))) (0, 0) /\
  veq (window_isometry (fresh None false) (1, 1)) (500, 500) /\
  veq (window_isometry (fresh None false) zeros) (500 / 2, 500 / 2).
Proof.
  apply (window_isometry_corners (fresh None false)).
  vm_compute; discriminate.
Defined.

(** ** The canvas *)

Lemma draw_calls_spec {G : Type} `{RandomSource G}
    (self : TargetHazardWorld G) (b : Bodies) :
  bodies self = Some b -> traces_ok self ->
  draw_calls self
  = Ok (fill (255, 255, 255)%Z
        :: (if show_observation_traces self
            then match observations self with
                 | Some l =>
                     if (2 <=? length l)%nat then trace_lines self l else []
                 | None => []
                 end
            else [])
        ++ body_circles self b).
Proof.
  intros Hb Ht; unfold draw_calls, traces_ok in *; rewrite Hb.
  destruct (show_observation_traces self); cbn [getattr mbind result_bind];
    [| reflexivity].
  destruct Ht as [l ->]; [reflexivity |]; cbn [getattr mbind result_bind].
  now destruct (2 <=? length l)%nat.
Qed.

Lemma window_isometry_config {G : Type} `{RandomSource G}
    (self self' : TargetHazardWorld G) :
  config self' = config self ->
  forall v, window_isometry self' v = window_isometry self v.
Proof.
  intros Hc v; unfold window_isometry.
  now rewrite (config_window_size _ _ Hc), (config_max_location _ _ Hc).
Qed.

Lemma trace_lines_config {G : Type} `{RandomSource G}
    (self self' : TargetHazardWorld G) (l : list Obs) :
  config self' = config self -> trace_lines self' l = trace_lines self l.
Proof.
  intros Hc; unfold trace_lines.
  now rewrite !(map_ext _ _ (window_isometry_config self self' Hc)).
Qed.

Lemma body_circles_config {G : Type} `{RandomSource G}
    (self self' : TargetHazardWorld G) (b : Bodies) :
  config self' = config self -> body_circles self' b = body_circles self b.
Proof.
  intros Hc; unfold body_circles.
  now rewrite !(window_isometry_config self self' Hc).
Qed.

(** X17.  Every frame is a white fill, then the polylines, then the circles
    of target, hazard and agent in that order, the agent last.  The
    polylines are drawn only with traces switched on and a trace that held
    an observation before this frame; they then run through the whole
    trace, this frame's observation included, so that no polyline ever has
    fewer than two points. *)
Theorem frame_layers {G : Type} `{RandomSource G}
    (self : TargetHazardWorld G) (b : Bodies) :
  bodies self = Some b -> traces_ok self ->
  exists self' lines,
    _render_frame_canvas self
    = Ok (self', fill (255, 255, 255)%Z :: lines ++ body_circles self b) /\
    lines
    = (if show_observation_traces self
       then match observations self with
            | Some (o :: l) => trace_lines self ((o :: l) ++ [obs_of b])
            | _ => []
            end
       else []) /\
    Forall polyline_ok lines.
Proof.
  intros Hb Ht; unfold _render_frame_canvas.
  destruct (_render_frame_effect self b Hb Ht)
    as (self' & Hr & Hb' & _ & Hc & _ & _ & _ & Ho).
  assert (Ht' : traces_ok self').
  { unfold traces_ok in *; rewrite (config_traces _ _ Hc), Ho.
    intros E; rewrite E; destruct (Ht E) as [l ->]; cbn; eauto. }
  rewrite Hr; cbn [mbind result_bind].
  rewrite (draw_calls_spec self' b Hb' Ht'); cbn [mbind result_bind].
  rewrite (body_circles_config _ _ b Hc), (config_traces _ _ Hc), Ho.
  eexists self', _; split; [reflexivity |].
  unfold traces_ok in Ht.
  destruct (show_observation_traces self); [| split; [reflexivity | constructor]].
  destruct Ht as [l ->]; [reflexivity |]; cbn [option_map].
  destruct l as [| o l]; [split; [reflexivity | constructor] |].
  assert (E : (2 <=? length ((o :: l) ++ [obs_of b]))%nat = true)
    by (apply Nat.leb_le; rewrite length_app; cbn [length]; lia).
  rewrite E, (trace_lines_config _ _ _ Hc).
  split; [reflexivity |].
  assert (Hlen : forall (f : vec2 -> vec2) (g : Obs -> vec2),
             (2 <= length (map f (map g ((o :: l) ++ [obs_of b]))))%nat)
    by (intros f g; rewrite !length_map, length_app; cbn [length]; lia).
  unfold trace_lines.
  constructor; [apply Hlen |].
  constructor; [apply Hlen |].
  constructor; [apply Hlen |].
  constructor.
Qed.

Lemma frame_layers_witness :
  let self :=
    started (Some "human"%string) true (Some 7%N) None in
  let b := initial_bodies (fresh (Some "human"%string) true) (Some 7%N) None in
  exists self' lines,
    _render_frame_canvas self
    = Ok (self', fill (255, 255, 255)%Z :: lines ++ body_circles self b) /\
    lines = trace_lines self [obs_of b; obs_of b] /\
    Forall polyline_ok lines.
Proof.
  apply (frame_layers (started (Some "human"%string) true (Some 7%N) None)
           (initial_bodies (fresh (Some "human"%string) true) (Some 7%N) None)).
  - vm_compute; reflexivity.
  - intros _; vm_compute; eexists; reflexivity.
Defined.

(** The canvas of a frame, in full. *)
Lemma frame_layers_aux {G : Type} `{RandomSource G}
    (self : TargetHazardWorld G) (b : Bodies) :
  bodies self = Some b -> traces_ok self ->
  exists self',
    _render_frame_canvas self
    = Ok (self',
          fill (255, 255, 255)%Z
          :: (if show_observation_traces self
              then match observations self with
                   | Some (o :: l) => trace_lines self ((o :: l) ++ [obs_of b])
                   | _ => []
                   end
              else [])
          ++ body_circles self b).
Proof.
  intros Hb Ht; unfold _render_frame_canvas.
  destruct (_render_frame_effect self b Hb Ht)
    as (self' & Hr & Hb' & _ & Hc & _ & _ & _ & Ho).
  assert (Ht' : traces_ok self').
  { unfold traces_ok in *; rewrite (config_traces _ _ Hc), Ho.
    intros E; rewrite E; destruct (Ht E) as [l ->]; cbn; eauto. }
  rewrite Hr; cbn [mbind result_bind].
  rewrite (draw_calls_spec self' b Hb' Ht'); cbn [mbind result_bind].
  rewrite (body_circles_config _ _ b Hc), (config_traces _ _ Hc), Ho.
  exists self'.
  unfold traces_ok in Ht.
  destruct (show_observation_traces self); [| reflexivity].
  destruct Ht as [l ->]; [reflexivity |]; cbn [option_map].
  destruct l as [| o l]; [reflexivity |].
  assert (E : (2 <=? length ((o :: l) ++ [obs_of b]))%nat = true)
    by (apply Nat.leb_le; rewrite length_app; cbn [length]; lia).
  now rewrite E, (trace_lines_config _ _ _ Hc).
Qed.

Lemma final_bodies_bounded {G : Type} `{RandomSource G}
    (self : TargetHazardWorld G) (actions : list Action) :
  0 <= max_absolute_location self -> 0 <= max_absolute_velocity self ->
  forall b,
    bounded self (obs_of b) ->
    bounded self (obs_of (final_bodies self b actions)).
Proof.
  intros Hl Hv; induction actions as [| a rest IH]; intros b Hb; cbn; [easy |].
  apply IH; now apply advance_bounded.
Qed.

Lemma trajectory_obs_bounded {G : Type} `{RandomSource G}
    (self : TargetHazardWorld G) (actions : list Action) (b : Bodies) :
  0 <= max_absolute_location self -> 0 <= max_absolute_velocity self ->
  Forall (bounded self) (map obs_out (trajectory self b actions)).
Proof.
  intros Hl Hv.
  pose proof (trajectory_bounded self actions Hl Hv b) as Hf.
  induction Hf; cbn [map]; constructor; assumption.
Qed.

(** The points of a polyline through bounded observations lie in the
    window. *)
Lemma trace_points_in_window {G : Type} `{RandomSource G}
    (self : TargetHazardWorld G) (l : list Obs) :
  0 < max_absolute_location self -> (0 <= window_size self)%Z ->
  Forall (bounded self) l ->
  Forall (drawn_in_window self) (trace_lines self l).
Proof.
  intros Hm Hw Hl.
  assert (Hpts : forall g : Obs -> vec2,
             (forall o, bounded self o ->
                        within (max_absolute_location self) (g o)) ->
             Forall (in_window self) (map (window_isometry self) (map g l))).
  { intros g Hg; induction Hl as [| o l Ho _ IH]; cbn [map]; constructor;
      [apply window_isometry_in_window; auto | exact IH]. }
  unfold trace_lines.
  constructor; [apply Hpts; intros [[[[[al av] tl] tv] hl] hv] Hb; apply Hb |].
  constructor; [apply Hpts; intros [[[[[al av] tl] tv] hl] hv] Hb; apply Hb |].
  constructor; [apply Hpts; intros [[[[[al av] tl] tv] hl] hv] Hb; apply Hb |].
  constructor.
Qed.

Lemma body_circles_in_window {G : Type} `{RandomSource G}
    (self : TargetHazardWorld G) (b : Bodies) :
  0 < max_absolute_location self -> (0 <= window_size self)%Z ->
  bounded self (obs_of b) ->
  Forall (drawn_in_window self) (body_circles self b).
Proof.
  intros Hm Hw [[Ha _] [[Ht _] [Hh _]]]; unfold body_circles.
  repeat (constructor; [now apply window_isometry_in_window |]).
  constructor.
Qed.

(** X18.  Nothing is drawn outside the window: with a positive location
    bound, bounds and a window size that are not negative, and options
    whose positions lie in the location box, a frame drawn after an episode
    of any length puts every circle centre and every polyline point inside
    the window square. *)
Theorem frames_stay_in_the_window {G : Type} `{RandomSource G}
    (self : TargetHazardWorld G) (seed : option N)
    (options : option (gmap string vec2)) (actions : list Action) :
  0 < max_absolute_location self ->
  0 <= max_absolute_velocity self ->
  (0 <= window_size self)%Z ->
  overrides_within (max_absolute_location self) options ->
  exists self' first outs self'' canvas,
    episode self seed options actions = Ok (self', first, outs) /\
    _render_frame_canvas self' = Ok (self'', canvas) /\
    Forall (drawn_in_window self) canvas.
Proof.
  intros Hm Hv Hw Ho.
  assert (Hl : 0 <= max_absolute_location self) by lra.
  destruct (episode_effect self seed options actions)
    as (self' & He & Hb & _ & Hc & Ht & _ & _ & _ & Hobs).
  destruct (frame_layers_aux self' _ Hb Ht) as (self'' & Hf).
  eexists self', _, _, self'', _; split; [exact He |]; split; [exact Hf |].
  pose proof (initial_bounded self seed options Hl Hv Ho) as Hb0.
  pose proof (final_bodies_bounded self actions Hl Hv _ Hb0) as Hbf.
  rewrite (body_circles_config _ _ _ Hc), (config_traces _ _ Hc), Hobs.
  constructor; [exact I |].
  apply Forall_app; split; [| now apply body_circles_in_window].
  destruct (show_observation_traces self); [| constructor].
  destruct (is_human self); [| constructor].
  cbn [app]; rewrite (trace_lines_config _ _ _ Hc).
  apply trace_points_in_window; try assumption.
  constructor; [exact Hb0 |].
  apply Forall_app; split;
    [now apply trajectory_obs_bounded | constructor; [exact Hbf | constructor]].
Qed.

Lemma frames_stay_in_the_window_witness :
  exists self' first outs self'' canvas,
    episode (fresh (Some "human"%string) true) (Some 7%N)
      (Some {[ "agent_location"%string := (1 # 2, 0) ]})
      [((1, 1), (0, 0), (- (5), 3)); ((0, 0), (1, 0), (0, 0))]
    = Ok (self', first, outs) /\
    _render_frame_canvas self' = Ok (self'', canvas) /\
    Forall (drawn_in_window (fresh (Some "human"%string) true)) canvas.
Proof.
  apply (frames_stay_in_the_window (fresh (Some "human"%string) true)
           (Some 7%N) (Some {[ "agent_location"%string := (1 # 2, 0) ]})
           [((1, 1), (0, 0), (- (5), 3)); ((0, 0), (1, 0), (0, 0))]).
  - reflexivity.
  - vm_compute; discriminate.
  - discriminate.
  - intros o key v [= <-] Hk Hv; unfold location_keys in Hk.
    rewrite !elem_of_cons, elem_of_nil in Hk.
    destruct Hk as [-> | [-> | [-> | []]]]; vm_compute in Hv;
      [| discriminate | discriminate].
    injection Hv as <-; split; vm_compute; discriminate.
Defined.

(** ** The declared spaces *)

(** X19.  Every observation that a step returns belongs to the observation
    space the constructor declared: for an object built by [__init__] with
    location and velocity bounds that are not negative, after any [reset]
    and any actions, each of the six vectors of each step observation is
    contained in the box of the same index of [observation_space]. *)
Theorem step_observations_in_observation_space {G : Type} `{RandomSource G}
    (entropy : G) (pg : Pygame) (mode : option string) (size : Z)
    (precision max_location max_velocity max_acceleration : Q)
    (traces : bool) (self : TargetHazardWorld G) (seed : option N)
    (options : option (gmap string vec2)) (actions : list Action) :
  __init__ entropy pg mode size precision max_location max_velocity
    max_acceleration traces = Ok self ->
  0 <= max_location -> 0 <= max_velocity ->
  exists self' first outs,
    episode self seed options actions = Ok (self', first, outs) /\
    observation_space self' = observation_space self /\
    Forall
      (fun out =>
         Forall2 Box_contains (observation_space self) (obs_list (obs_out out)))
      outs.
Proof.
  rewrite __init___cases.
  destruct (_ && _); [| discriminate].
  destruct (match mode with None => true | Some m => _ end); [| discriminate].
  intros [= <-] Hl Hv.
  match goal with
  | |- context [episode ?w _ _ _] => set (self := w)
  end.
  destruct (episode_ok self seed options actions) as (self' & He & Hc).
  eexists self', _, _; split; [exact He |].
  split; [unfold config in Hc; now injection Hc |].
  pose proof (trajectory_bounded self actions Hl Hv
                (initial_bodies self seed options)) as Hb.
  eapply Forall_impl; [exact Hb |].
  intros [[[[[[[[[al av] tl] tv] hl] hv] reward] terminated] truncated] info].
  unfold obs_out, bounded; cbn [fst].
  intros [[Ha Hav] [[Ht Htv] [Hh Hhv]]].
  cbn [observation_space self obs_list].
  repeat (constructor; [apply within_range; assumption |]).
  constructor.
Qed.

Lemma step_observations_in_observation_space_witness :
  exists self' first outs,
    episode (fresh None false) (Some 7%N) None
      [((1, 1), (0, 0), (- (5), 3)); ((0, 0), (1, 0), (0, 0))]
    = Ok (self', first, outs) /\
    observation_space self' = observation_space (fresh None false) /\
    Forall
      (fun out =>
         Forall2 Box_contains (observation_space (fresh None false))
           (obs_list (obs_out out)))
      outs.
Proof.
  apply (step_observations_in_observation_space 2024%N pygame_off None 500
           (1 # 100) 1 1 1 false (fresh None false) (Some 7%N) None
           [((1, 1), (0, 0), (- (5), 3)); ((0, 0), (1, 0), (0, 0))]).
  - reflexivity.
  - vm_compute; discriminate.
  - vm_compute; discriminate.
Defined.

(** ** The random source across episodes *)

(** X20.  Only [reset] consumes random draws.  After an episode the
    generator is the one [reset] left, whatever the actions were, so a
    following [reset] without seed and without options places the three
    bodies at the next three draws of that generator: the fourth, fifth and
    sixth draw since the seed. *)
Theorem unseeded_reset_continues_the_stream {G : Type} `{RandomSource G}
    (self : TargetHazardWorld G) (seed : option N)
    (options : option (gmap string vec2)) (actions : list Action) :
  exists self1 first outs self2 obs2 info2,
    episode self seed options actions = Ok (self1, first, outs) /\
    np_random self1 = snd (draw3 self seed) /\
    reset self1 None None = Ok (self2, (obs2, info2)) /\
    (agent_position obs2, target_position obs2, hazard_position obs2,
     np_random self2)
    = three_draws self (snd (draw3 self seed)).
Proof.
  destruct (episode_effect self seed options actions)
    as (self1 & He & _ & Hg & Hc & _).
  destruct (reset_ok self1 None None) as (self2 & Hr & _ & Hg2 & _).
  eexists self1, _, _, self2, _, _.
  split; [exact He |]; split; [exact Hg |]; split; [exact Hr |].
  rewrite Hg2.
  unfold three_draws, obs_of, initial_bodies, agent_position, target_position,
    hazard_position, options_get, draw3, draw2, draw1, draw, seeded;
    cbn [_agent_location _target_location _hazard_location].
  now rewrite (config_max_location _ _ Hc), Hg.
Qed.

(** ** Edges of [step] and [reset] *)

(** X21.  With a [location_precision] that is not positive no episode ever
    terminates: from every state that a [reset] has prepared, every step
    returns [terminated = false], even with agent and target on the same
    point. *)
Theorem nonpositive_precision_never_terminates {G : Type} `{RandomSource G}
    (self : TargetHazardWorld G) (b : Bodies) (action : Action) :
  bodies self = Some b -> traces_ok self ->
  location_precision self <= 0 ->
  exists self' obs reward truncated info,
    step self action = Ok (self', (obs, reward, false, truncated, info)).
Proof.
  intros Hb Ht Hp.
  destruct (step_ok self b action Hb Ht) as (self' & Hs & _).
  eexists self', _, _, _, _; rewrite Hs.
  replace (surd_ltb _ (location_precision self)) with false; [reflexivity |].
  symmetry; apply Bool.not_true_is_false; intros E.
  apply surd_ltb_true in E; destruct E as [E _]; lra.
Qed.

Lemma nonpositive_precision_never_terminates_witness :
  let self :=
    match
      self0 ← __init__ 2024%N pygame_off None 500 0 1 1 1 false;
      reset self0 None
        (Some {[ "agent_location"%string := (0, 0);
                 "target_location"%string := (0, 0) ]})
    with
    | Ok (self, _) => self
    | Raise _ => fresh None false
    end in
  exists self' obs reward truncated info,
    step self (zeros, zeros, zeros)
    = Ok (self', (obs, reward, false, truncated, info)).
Proof.
  intros self.
  apply (nonpositive_precision_never_terminates self
           {| _agent_location := (0, 0); _agent_velocity := zeros;
              _target_location := (0, 0); _target_velocity := zeros;
              _hazard_location := fst (draw3 (fresh None false) None);
              _hazard_velocity := zeros |}).
  - vm_compute; reflexivity.
  - intros Htr; vm_compute in Htr; discriminate.
  - vm_compute; discriminate.
Defined.

(** X22.  [reset] reads the options only under the three location keys:
    two option mappings that agree on ["agent_location"],
    ["target_location"] and ["hazard_location"] give the same result and
    leave the same object, whatever else they hold; in particular an
    empty mapping acts like no mapping. *)
Theorem reset_ignores_other_options {G : Type} `{RandomSource G}
    (self : TargetHazardWorld G) (seed : option N)
    (options1 options2 : option (gmap string vec2)) :
  (forall key, key ∈ location_keys ->
               supplied options1 key = supplied options2 key) ->
  reset self seed options1 = reset self seed options2.
Proof.
  intros Hk.
  assert (Hget : forall key dflt,
             key ∈ location_keys ->
             options_get options1 key dflt = options_get options2 key dflt).
  { intros key dflt Hin.
    now rewrite !options_get_supplied, (Hk key Hin). }
  unfold location_keys in Hget.
  unfold reset.
  destruct (uniform _ _ (match seed with Some s => _ | None => _ end))
    as [d1 g1].
  destruct (uniform _ _ g1) as [d2 g2].
  destruct (uniform _ _ g2) as [d3 g3].
  rewrite (Hget "agent_location"%string d1),
          (Hget "target_location"%string d2),
          (Hget "hazard_location"%string d3);
    [reflexivity | | |]; rewrite !elem_of_cons; auto.
Qed.

Lemma reset_ignores_other_options_witness :
  reset (fresh None false) (Some 7%N) (Some ∅)
  = reset (fresh None false) (Some 7%N) None /\
  reset (fresh None false) (Some 7%N)
    (Some {[ "agent_location"%string := (0, 0);
             "wind"%string := (1, 1) ]})
  = reset (fresh None false) (Some 7%N)
      (Some {[ "agent_location"%string := (0, 0) ]}).
Proof.
  split.
  - apply (reset_ignores_other_options (fresh None false) (Some 7%N)
             (Some ∅) None).
    intros key _; apply lookup_empty.
  - apply (reset_ignores_other_options (fresh None false) (Some 7%N)
             (Some {[ "agent_location"%string := (0, 0);
                      "wind"%string := (1, 1) ]})
             (Some {[ "agent_location"%string := (0, 0) ]})).
    intros key Hin; unfold location_keys in Hin.
    rewrite !elem_of_cons, elem_of_nil in Hin.
    destruct Hin as [-> | [-> | [-> | []]]]; reflexivity.
Defined.

(** ** The model on concrete inputs *)

(** [fresh] is what the constructor builds. *)
Example fresh_is_constructed :
  __init__ 2024%N pygame_off (Some "human"%string) 500 (1 # 100) 1 1 1 true
  = Ok (fresh (Some "human"%string) true).
Proof. reflexivity. Qed.

(** Agent at (0, 0), target at (0, 0.005), hazard at (1, 1): the zero action
    gives [terminated = true] and reward -1/24. *)
Example step_reaches_target :
  exists self' obs info,
    step
      (started None false None
         (Some {[ "agent_location"%string := (0, 0);
                  "target_location"%string := (0, 5 # 1000);
                  "hazard_location"%string := (1, 1) ]}))
      (zeros, zeros, zeros)
    = Ok (self', (obs, - (1 # 24), true, false, info)).
Proof. eexists _, _, _; vm_compute; reflexivity. Qed.

(** The same with the target at (0, 0.015), farther than the precision. *)
Example step_misses_target :
  exists self' obs info,
    step
      (started None false None
         (Some {[ "agent_location"%string := (0, 0);
                  "target_location"%string := (0, 15 # 1000);
                  "hazard_location"%string := (1, 1) ]}))
      (zeros, zeros, zeros)
    = Ok (self', (obs, - (1 # 24), false, false, info)).
Proof. eexists _, _, _; vm_compute; reflexivity. Qed.

(** Before any [reset] the bodies do not exist and [step] raises. *)
Example step_before_reset :
  step (fresh None false) (zeros, zeros, zeros) = Raise AttributeError.
Proof. reflexivity. Qed.
